(** * The annotated molecular dataset: DataSetTSV and papyrus_filter

    A shallow embedding of [data/dataset.py] (class [DataSetTSV]) and of
    [scaffviz/data/papyrus/papyrus_filter.py].

    - A pandas [DataFrame] is a row count (its index) and an ordered list
      of named columns.
    - A method of [DataSetTSV] is a computation over the object and the
      disk; an exception leaves both as they were when it was raised.
    - The library calls whose result depends on text conventions
      ([to_csv], [read_csv], [Chem.MolFromSmiles]) and the callables the
      caller passes in are parameters. *)

From stdpp Require Import gmap strings list pretty.
From Stdlib Require Import ZArith.

Local Open Scope string_scope.
Local Open Scope Z_scope.
Local Open Scope nat_scope.

(* ===================================================================== *)
(** ** Values, exceptions, results *)
(* ===================================================================== *)

(** What a cell of a frame holds. *)
Inductive value : Type :=
| VStr (s : string)   (* a Python str *)
| VNum (z : Z)        (* a number *)
| VMol (m : string)   (* an RDKit molecule object *)
| VNone.              (* a missing entry: None or NaN *)

#[global] Instance value_eq_dec : EqDecision value.
Proof. solve_decision. Defined.

(** pandas' [isna]. *)
Definition isna (v : value) : bool :=
  match v with VNone => true | _ => false end.

Inductive exn : Type :=
| TypeError                 (* an operation applied to None *)
| KeyError (key : string)   (* a column that is not there *)
| ValueError                (* length of values does not match the index *)
| EmptyDataError            (* read_csv: no columns to parse *)
| Raised (msg : string).    (* whatever a callable of the caller raises *)

Inductive result (A : Type) : Type :=
| Ok (a : A)
| Raise (e : exn).
Arguments Ok {A} a.
Arguments Raise {A} e.

#[global] Instance result_ret : MRet result := fun _ a => Ok a.
#[global] Instance result_bind : MBind result := fun _ _ k r =>
  match r with Ok a => k a | Raise e => Raise e end.
#[global] Instance result_fmap : FMap result := fun _ _ f r =>
  match r with Ok a => Ok (f a) | Raise e => Raise e end.

(** Calls [f] on the elements from left to right and stops at the first
    exception. *)
Fixpoint map_result {A B : Type} (f : A -> result B) (l : list A)
  : result (list B) :=
  match l with
  | [] => Ok []
  | x :: l' =>
      match f x with
      | Ok y =>
          match map_result f l' with
          | Ok ys => Ok (y :: ys)
          | Raise e => Raise e
          end
      | Raise e => Raise e
      end
  end.

(** A callable applied to one cell. *)
Definition callable : Type := value -> result value.

(** A descriptor or a scaffold: the text [str] gives for it, used in the
    column name, and what calling it does. *)
Record Annotation : Type := {
  fn_str : string;
  fn_call : callable
}.

(* ===================================================================== *)
(** ** Frames *)
(* ===================================================================== *)

Record frame (A : Type) : Type := {
  nrows : nat;
  columns : list (string * list A)
}.
Arguments nrows {A} f.
Arguments columns {A} f.

Abbreviation DataFrame := (frame value).

(** A tab-separated file: the header and, per column, the text of each
    field. *)
Abbreviation tsv := (frame string).

Definition names {A : Type} (f : frame A) : list string :=
  map fst (columns f).

(** Every column is as long as the index. *)
Definition frame_wf {A : Type} (f : frame A) : Prop :=
  Forall (fun c => length (snd c) = nrows f) (columns f).

Fixpoint assoc {A : Type} (key : string) (cols : list (string * A))
  : option A :=
  match cols with
  | [] => None
  | (k, x) :: rest => if String.eqb k key then Some x else assoc key rest
  end.

(** [cols[key] = x]: replaces the column in place when the name is there,
    appends it otherwise. *)
Fixpoint assoc_set {A : Type} (key : string) (x : A)
  (cols : list (string * A)) : list (string * A) :=
  match cols with
  | [] => [(key, x)]
  | (k, y) :: rest =>
      if String.eqb k key then (k, x) :: rest
      else (k, y) :: assoc_set key x rest
  end.

(** [df[key]] *)
Definition getitem (df : DataFrame) (key : string) : result (list value) :=
  match assoc key (columns df) with
  | Some vs => Ok vs
  | None => Raise (KeyError key)
  end.

(** [df[key] = vs] where [vs] already has the index of [df] (a Series
    computed from [df], an array of its length). *)
Definition setitem (df : DataFrame) (key : string) (vs : list value)
  : DataFrame :=
  {| nrows := nrows df; columns := assoc_set key vs (columns df) |}.

(** [df[key] = data] for a list the caller supplies. A frame whose index
    is empty takes the index of a non-empty list, and its other columns are
    filled with missing entries; otherwise the lengths must agree. *)
Definition setitem_list (df : DataFrame) (key : string) (data : list value)
  : result DataFrame :=
  if (nrows df =? 0) && negb (length data =? 0) then
    Ok {| nrows := length data;
          columns :=
            assoc_set key data
              (map (fun c => (fst c, replicate (length data) VNone))
                   (columns df)) |}
  else if length data =? nrows df then Ok (setitem df key data)
  else Raise ValueError.

(** [df.drop(key, axis=1)] *)
Definition drop (df : DataFrame) (key : string) : result DataFrame :=
  if existsb (String.eqb key) (names df) then
    Ok {| nrows := nrows df;
          columns :=
            List.filter (fun c => negb (String.eqb (fst c) key))
                        (columns df) |}
  else Raise (KeyError key).

(** [df[keys]]: the columns named, in the order of [keys]. *)
Definition select (df : DataFrame) (keys : list string) : result DataFrame :=
  cols ← map_result (fun k => vs ← getitem df k; Ok (k, vs)) keys;
  Ok {| nrows := nrows df; columns := cols |}.

(** [df.apply(lambda row: f(row[key]), axis=1)], as the right-hand side
    of a column assignment [df[name] = ...]: row by row, the cell under
    [key] is looked up and [f] is called on it. On a frame without rows
    pandas has no row to call the lambda on: it tries the lambda once on an
    empty row, ignores that this raises, and returns a frame instead of a
    column, and the assignment of that frame to one column raises
    ValueError (nothing is assigned). *)
Definition apply_rows (df : DataFrame) (key : string) (f : callable)
  : result (list value) :=
  match nrows df with
  | O => Raise ValueError
  | S _ => vs ← getitem df key; map_result f vs
  end.

(* ===================================================================== *)
(** ** Scaffold grouping (lines 204-206 of dataset.py) *)
(* ===================================================================== *)

Definition count (v : value) (col : list value) : nat :=
  length (List.filter (fun w => bool_decide (w = v)) col).

Fixpoint dedup (l : list value) : list value :=
  match l with
  | [] => []
  | v :: l' =>
      v :: List.filter (fun w => negb (bool_decide (w = v))) (dedup l')
  end.

(** [pd.value_counts(col)]: the distinct values with how often each occurs.
    Missing entries are left out ([dropna] is true unless asked otherwise). *)
Definition value_counts (col : list value) : list (value * nat) :=
  map (fun v => (v, count v col))
      (dedup (List.filter (fun v => negb (isna v)) col)).

(** [counts[counts.lt(m)].index] *)
Definition rare_index (mols_per_group : Z) (counts : list (value * nat))
  : list value :=
  map fst
      (List.filter (fun c => (Z.of_nat (snd c) <? mols_per_group)%Z) counts).

(** [v in index] *)
Definition isin (v : value) (index : list value) : bool :=
  existsb (fun w => bool_decide (w = v)) index.

(** [np.where(col.isin(counts[mask].index), 'Other', col)], for a column
    that holds a str: such a column holds Python objects, and np.where
    leaves every entry it does not replace as it is. (A column of numbers,
    or of nothing but missing entries, comes out of np.where as text, and
    pandas counts molecule objects by identity, not by what they hold; the
    statements about the values of a grouping are for columns of strings
    and missing entries.) *)
Definition scaffold_group (mols_per_group : Z) (col : list value)
  : list value :=
  let counts := value_counts col in
  let index := rare_index mols_per_group counts in
  map (fun v => if isin v index then VStr "Other" else v) col.

(* ===================================================================== *)
(** ** Computations over a state that may raise *)
(* ===================================================================== *)

(** A computation returns a value or raises, and in both cases leaves a
    state: what was done before an exception stays done. *)
Definition ST (S A : Type) : Type := S -> result A * S.

#[global] Instance ST_ret {S : Type} : MRet (ST S) :=
  fun _ a w => (Ok a, w).
#[global] Instance ST_bind {S : Type} : MBind (ST S) :=
  fun _ _ k c w =>
    match c w with
    | (Ok a, w') => k a w'
    | (Raise e, w') => (Raise e, w')
    end.

Definition lift {S A : Type} (r : result A) : ST S A := fun w => (r, w).

(** Runs the calls one after the other; the caller goes on after a call
    that raised. *)
Fixpoint run_all {S : Type} (calls : list (ST S unit)) (w : S) : S :=
  match calls with
  | [] => w
  | c :: rest => run_all rest (snd (c w))
  end.

(* ===================================================================== *)
(** ** DataSetTSV *)
(* ===================================================================== *)

Record DataSetTSV : Type := {
  smilesCol : string;
  molCol : string;
  path : string;
  _data : DataFrame
}.

(** The object and the files on disk. *)
Record world : Type := {
  self : DataSetTSV;
  disk : gmap string tsv
}.

Abbreviation M := (ST world).

Definition get_self : M DataSetTSV := fun w => (Ok (self w), w).

(** The world in which [self._data] is [df]. *)
Definition with_data (w : world) (df : DataFrame) : world :=
  {| self := {| smilesCol := smilesCol (self w); molCol := molCol (self w);
                path := path (self w); _data := df |};
     disk := disk w |}.

(** [self._data] is changed in place. *)
Definition set_data (df : DataFrame) : M unit := fun w =>
  (Ok tt, with_data w df).

(** Writing a file replaces what was at the path; failures of the file
    system are not modelled. *)
Definition write_file (p : string) (f : tsv) : M unit := fun w =>
  (Ok tt, {| self := self w; disk := <[p := f]> (disk w) |}).

(** Python's truth value of a str. *)
Definition truthy (s : string) : bool :=
  match s with EmptyString => false | _ => true end.

(** [col.startswith(p)] *)
Definition startswith (col p : string) : bool := String.prefix p col.

Section Store.

(** [Chem.MolFromSmiles] *)
Variable MolFromSmiles : callable.
(** The text [to_csv] writes for a cell. *)
Variable to_text : value -> string.
(** The cells [read_csv] makes of the text of a column, and the column
    names it makes of the header. *)
Variable read_column : list string -> list value.
Variable read_names : list string -> list string.

(** [df.to_csv(path, sep='\t', index=False, header=True)] *)
Definition to_csv (df : DataFrame) : tsv :=
  {| nrows := nrows df;
     columns := map (fun c => (fst c, map to_text (snd c))) (columns df) |}.

(** [pd.read_csv(path, sep='\t')] *)
Definition read_csv (f : tsv) : result DataFrame :=
  match columns f with
  | [] => Raise EmptyDataError
  | _ =>
      Ok {| nrows := nrows f;
            columns :=
              zip (read_names (names f))
                  (map (fun c => read_column (snd c)) (columns f)) |}
  end.

(** [PandasTools.AddMoleculeColumnToFrame(frame, smilesCol, molCol)]:
    [frame[molCol] = frame[smilesCol].map(Chem.MolFromSmiles)]. *)
Definition AddMoleculeColumnToFrame (frame : option DataFrame)
  (smilesCol molCol : string) : result DataFrame :=
  match frame with
  | None => Raise TypeError
  | Some df =>
      smiles ← getitem df smilesCol;
      mols ← map_result MolFromSmiles smiles;
      Ok (setitem df molCol mols)
  end.

(** [DataSetTSV(path, mol_col)] *)
Definition init (path mol_col : string) (disk : gmap string tsv)
  : result DataSetTSV :=
  data ← match disk !! path with
         | Some f => df ← read_csv f; Ok (Some df)
         | None => Ok None
         end;
  data' ← AddMoleculeColumnToFrame data mol_col "RDMol";
  Ok {| smilesCol := mol_col; molCol := "RDMol"; path := path;
        _data := data' |}.

Definition save (path_arg : option string) : M unit :=
  s ← get_self;
  let target :=
    match path_arg with
    | Some p => if truthy p then p else path s
    | None => path s
    end in
  write_file target (to_csv (_data s)).

Fixpoint addDescriptors (descriptors : list Annotation) : M unit :=
  match descriptors with
  | [] => mret tt
  | descriptor :: rest =>
      s ← get_self;
      col ← lift (apply_rows (_data s) (molCol s) (fn_call descriptor));
      set_data (setitem (_data s) ("Descriptor_" +:+ fn_str descriptor) col);;
      save None;;
      addDescriptors rest
  end.

Fixpoint addScaffolds (scaffolds : list Annotation) : M unit :=
  match scaffolds with
  | [] => mret tt
  | scaffold :: rest =>
      s ← get_self;
      col ← lift (apply_rows (_data s) (molCol s) (fn_call scaffold));
      let df := setitem (_data s) ("Scaffold_" +:+ fn_str scaffold) col in
      set_data df;;
      df' ← lift (AddMoleculeColumnToFrame (Some df)
                    ("Scaffold_" +:+ fn_str scaffold)
                    ("Scaffold_" +:+ fn_str scaffold +:+ "_" +:+ molCol s));
      set_data df';;
      save None;;
      addScaffolds rest
  end.

Definition getDescriptorsNames : M (list string) :=
  s ← get_self;
  mret (List.filter (fun col => startswith col "Descriptor_")
                    (names (_data s))).

Definition getScaffoldNames : M (list string) :=
  s ← get_self;
  mret (List.filter (fun col => startswith col "Scaffold_")
                    (names (_data s))).

Definition getScaffolds (includeMols : bool) : M DataFrame :=
  s ← get_self;
  if includeMols then
    lift (select (_data s)
            (List.filter (fun col => startswith col "Scaffold_")
                         (names (_data s))))
  else
    cols ← getScaffoldNames;
    lift (select (_data s) cols).

Definition addData (name : string) (data : list value) : M unit :=
  s ← get_self;
  df ← lift (setitem_list (_data s) name data);
  set_data df;;
  save None.

Definition removeData (name : string) : M unit :=
  s ← get_self;
  df ← lift (drop (_data s) name);
  set_data df;;
  save None.

(** The loop of createScaffoldGroups. *)
Fixpoint group_columns (mols_per_group : Z) (scaffolds : list string)
  : M unit :=
  match scaffolds with
  | [] => mret tt
  | scaffold :: rest =>
      s ← get_self;
      col ← lift (getitem (_data s) scaffold);
      set_data (setitem (_data s) ("ScaffoldGroup_" +:+ scaffold)
                        (scaffold_group mols_per_group col));;
      group_columns mols_per_group rest
  end.

Definition createScaffoldGroups (mols_per_group : Z) : M unit :=
  scaffolds ← getScaffolds false;
  group_columns mols_per_group (names scaffolds);;
  save None.

Definition getScaffoldGroups (scaffold_name : string) : M (list value) :=
  s ← get_self;
  lift (getitem (_data s) ("ScaffoldGroup_" +:+ scaffold_name)).

(** A call of one of the mutating methods. *)
Inductive call : Type :=
| AddDescriptors (descriptors : list Annotation)
| AddScaffolds (scaffolds : list Annotation)
| AddData (name : string) (data : list value)
| RemoveData (name : string)
| CreateScaffoldGroups (mols_per_group : Z).

Definition run_call (c : call) : M unit :=
  match c with
  | AddDescriptors ds => addDescriptors ds
  | AddScaffolds ss => addScaffolds ss
  | AddData name data => addData name data
  | RemoveData name => removeData name
  | CreateScaffoldGroups m => createScaffoldGroups m
  end.

(** The world after [self._data] became [df] and was saved to [p]. *)
Definition saved (w : world) (df : DataFrame) (p : string) : world :=
  {| self := self (with_data w df);
     disk := <[p := to_csv df]> (disk w) |}.

(** The backing file holds the table as it is in memory. *)
Definition synced (w : world) : Prop :=
  disk w !! path (self w) = Some (to_csv (_data (self w))).



End Store.

(* ===================================================================== *)
(** ** What to_csv writes for a cell and what read_csv makes of a column *)
(* ===================================================================== *)

Section Conventions.

(** The text to_csv writes for a number and for a molecule object. *)
Variable number_text : Z -> string.
Variable mol_text : string -> string.
(** Whether read_csv takes a field for a missing entry (the empty field,
    NA, NaN and the like). *)
Variable is_na : string -> bool.
(** Whether read_csv can read a field as a number, and the number it
    reads. *)
Variable is_number : string -> bool.
Variable read_number : string -> value.
(** The same for a boolean (True, False and the like). *)
Variable is_bool : string -> bool.
Variable read_bool : string -> value.

(** to_csv: a str is written as it is, a missing entry as the empty
    field. *)
Definition cell_text (v : value) : string :=
  match v with
  | VStr s => s
  | VNum z => number_text z
  | VMol m => mol_text m
  | VNone => ""
  end.

Definition numeric_field (t : string) : bool := is_na t || is_number t.

Definition bool_field (t : string) : bool := is_na t || is_bool t.

Definition read_as (rd : string -> value) (t : string) : value :=
  if is_na t then VNone else rd t.

(** read_csv decides on the whole column: numbers when every field is
    missing or a number, booleans when every field is missing or a
    boolean, and otherwise every field that is not missing is the str it
    is. *)
Definition infer_column (fields : list string) : list value :=
  if forallb numeric_field fields then map (read_as read_number) fields
  else if forallb bool_field fields then map (read_as read_bool) fields
  else map (read_as VStr) fields.



End Conventions.

(** From [w] to [w'] the object kept its configuration, a table with rows
    kept its row count, and no file but the backing file was written. *)
Definition steady (w w' : world) : Prop :=
  smilesCol (self w') = smilesCol (self w)
  /\ molCol (self w') = molCol (self w)
  /\ path (self w') = path (self w)
  /\ (0 < nrows (_data (self w)) ->
      nrows (_data (self w')) = nrows (_data (self w)))
  /\ forall q, q <> path (self w) -> disk w' !! q = disk w !! q.

(* ===================================================================== *)
(** ** The reading methods of DataSetTSV *)
(* ===================================================================== *)

(** [df.rename(columns={old: new})]: a new frame in which every column
    named [old] is named [new]; a name that is not there is ignored. *)
Definition rename (df : DataFrame) (old new : string) : DataFrame :=
  {| nrows := nrows df;
     columns :=
       map (fun c => (if String.eqb (fst c) old then new else fst c, snd c))
           (columns df) |}.

Definition asDataFrame (smiles_col : string) : M DataFrame :=
  s ← get_self;
  if String.eqb smiles_col (smilesCol s) then mret (_data s)
  else mret (rename (_data s) (smilesCol s) smiles_col).

Definition getDescriptors : M DataFrame :=
  s ← get_self;
  cols ← getDescriptorsNames;
  lift (select (_data s) cols).

Definition getMols (asSmiles : bool) : M (list value) :=
  s ← get_self;
  if asSmiles then lift (getitem (_data s) (smilesCol s))
  else lift (getitem (_data s) (molCol s)).

Definition hasDescriptors : M bool :=
  cols ← getDescriptorsNames;
  mret (0 <? length cols).

Definition hasScaffolds : M bool :=
  cols ← getScaffoldNames;
  mret (0 <? length cols).

Definition hasScaffoldGroups : M bool :=
  s ← get_self;
  mret (0 <? length (List.filter
                       (fun col => startswith col "ScaffoldGroup_")
                       (names (_data s)))).

(** A str or a missing entry: what a column of structure strings holds. *)
Definition str_or_missing (v : value) : bool :=
  match v with
  | VStr _ | VNone => true
  | _ => false
  end.

(** Whether the call is addScaffolds, the one method that changes the
    table twice before it saves. *)
Definition is_addScaffolds (c : call) : bool :=
  match c with
  | AddScaffolds _ => true
  | _ => false
  end.

(* ===================================================================== *)
(** ** papyrus_filter *)
(* ===================================================================== *)

(** What the routine sees of the outside: what it printed and the files. *)
Record pworld : Type := {
  stdout : list string;
  files : gmap string tsv
}.

Definition print (msg : string) : ST pworld unit := fun w =>
  (Ok tt, {| stdout := stdout w ++ [msg]; files := files w |}).

Definition get_files : ST pworld (gmap string tsv) := fun w =>
  (Ok (files w), w).

Definition put_file (p : string) (f : tsv) : ST pworld unit := fun w =>
  (Ok tt, {| stdout := stdout w; files := <[p := f]> (files w) |}).

Fixpoint last_char (s : string) : option Ascii.ascii :=
  match s with
  | EmptyString => None
  | String c EmptyString => Some c
  | String _ s' => last_char s'
  end.

(** [s.endswith('/')] (the separator is character 47) *)
Definition endswith_sep (s : string) : bool :=
  match last_char s with
  | Some c => Ascii.eqb c (Ascii.ascii_of_nat 47)
  | None => false
  end.

(** [os.path.join(a, b)] *)
Definition path_join (a b : string) : string :=
  if startswith b "/" then b
  else if negb (truthy a) || endswith_sep a then a +:+ b
  else a +:+ "/" +:+ b.

(** ['_'.join(l)] *)
Fixpoint join_underscore (l : list string) : string :=
  match l with
  | [] => ""
  | [x] => x
  | x :: rest => x +:+ "_" +:+ join_underscore rest
  end.

(** For each key, whether it was not seen before. *)
Fixpoint first_seen (seen keys : list value) : list bool :=
  match keys with
  | [] => []
  | k :: rest => negb (isin k seen) :: first_seen (k :: seen) rest
  end.

Fixpoint keep_rows {A : Type} (mask : list bool) (l : list A) : list A :=
  match mask, l with
  | b :: mask', x :: l' =>
      if b then x :: keep_rows mask' l' else keep_rows mask' l'
  | _, _ => []
  end.

(** [df.drop_duplicates(subset=[key], inplace=True, ignore_index=True)] *)
Definition drop_duplicates (df : DataFrame) (key : string)
  : result DataFrame :=
  keys ← getitem df key;
  let mask := first_seen [] keys in
  Ok {| nrows := length (keep_rows mask keys);
        columns := map (fun c => (fst c, keep_rows mask (snd c)))
                       (columns df) |}.

(** Lines 25-26: [prefix or f"{'_'.join(acc_key)}_{quality}"], then
    [os.path.join(outdir, f"{prefix}.tsv")]. *)
Definition outfile_path (acc_key : list string) (quality outdir : string)
  (prefix : option string) : string :=
  let default := join_underscore acc_key +:+ "_" +:+ quality in
  let prefix :=
    match prefix with
    | Some p => if truthy p then p else default
    | None => default
    end in
  path_join outdir (prefix +:+ ".tsv").

Section Papyrus.

Variable to_text : value -> string.
Variable read_column : list string -> list value.
Variable read_names : list string -> list string.

(** The chunked reader of papyrus_scripts and its filters. *)
Variable chunks : Type.
Variable read_papyrus :
  gmap string tsv -> bool -> Z -> string -> bool -> result chunks.
Variable keep_quality : chunks -> string -> chunks.
Variable keep_accession : chunks -> list string -> chunks.
Variable consume_chunks : chunks -> result DataFrame.

Definition papyrus_filter (acc_key : list string) (quality outdir : string)
  (prefix : option string) (drop_dups : bool) (chunk_size : Z)
  (use_existing stereo plusplus : bool)
  : ST pworld (DataFrame * string) :=
  let outfile := outfile_path acc_key quality outdir prefix in
  fs ← get_files;
  match (if use_existing then fs !! outfile else None) with
  | Some f =>
      print ("Using existing data from " +:+ outfile +:+ "...");;
      df ← lift (read_csv read_column read_names f);
      mret (df, outfile)
  | None =>
      sample_data ← lift (read_papyrus fs stereo chunk_size outdir plusplus);
      print "Read all data.";;
      let filter1 := keep_quality sample_data quality in
      let filter2 := keep_accession filter1 acc_key in
      print "Initialized filters.";;
      filtered_data ← lift (consume_chunks filter2);
      print ("Number of compounds:" +:+ pretty (nrows filtered_data));;
      filtered_data ←
        (if drop_dups then
           print "Filtering out duplicate molecules";;
           before ← lift (getitem filtered_data "InChIKey");
           deduped ← lift (drop_duplicates filtered_data "InChIKey");
           after ← lift (getitem deduped "InChIKey");
           print ("Filtered out "
                  +:+ pretty (length before - length after)
                  +:+ " duplicate molecules");;
           mret deduped
         else mret filtered_data);
      put_file outfile (to_csv to_text filtered_data);;
      print ("Wrote data to file '" +:+ outfile +:+ "'.");;
      mret (filtered_data, outfile)
  end.

(** Lines 33-51 without the printing and the writing: the table the
    pipeline arrives at, with the rows of a repeated InChIKey dropped when
    asked. *)
Definition pipeline_table (fs : gmap string tsv) (acc_key : list string)
  (quality outdir : string) (drop_dups stereo plusplus : bool)
  (chunk_size : Z) : result DataFrame :=
  sample_data ← read_papyrus fs stereo chunk_size outdir plusplus;
  filtered ← consume_chunks
               (keep_accession (keep_quality sample_data quality) acc_key);
  if drop_dups then drop_duplicates filtered "InChIKey" else Ok filtered.

End Papyrus.

(* ===================================================================== *)
(** ** A concrete setting for the examples *)
(* ===================================================================== *)

(** A plain text convention: a str is written as it is, a missing entry as
    the empty field, a molecule object by its repr; every field that is not
    empty is read as a str. *)
Definition demo_to_text (v : value) : string :=
  match v with
  | VStr s => s
  | VNum z => pretty z
  | VMol m => "<rdkit.Chem.rdchem.Mol object>"
  | VNone => ""
  end.

Definition demo_read_column (fields : list string) : list value :=
  map (fun t => if truthy t then VStr t else VNone) fields.

Definition demo_read_names (header : list string) : list string := header.

(** Conventions for a table of strings and whole numbers: the markers
    read_csv takes for a missing entry by default, numbers written and read
    in decimal, the spellings read_csv takes for a boolean (read here as
    the numbers 1 and 0, which True and False are equal to in Python). *)
Definition demo_na_values : list string :=
  [""; "#N/A"; "#N/A N/A"; "#NA"; "-1.#IND"; "-1.#QNAN"; "-NaN"; "-nan";
   "1.#IND"; "1.#QNAN"; "<NA>"; "N/A"; "NA"; "NULL"; "NaN"; "None"; "n/a";
   "nan"; "null"].

Definition demo_is_na (t : string) : bool :=
  existsb (String.eqb t) demo_na_values.

Definition digit_of (c : Ascii.ascii) : option N :=
  let n := Ascii.N_of_ascii c in
  if (48 <=? n)%N && (n <=? 57)%N then Some (n - 48)%N else None.

Fixpoint parse_digits (acc : N) (s : string) : option N :=
  match s with
  | EmptyString => Some acc
  | String c s' =>
      match digit_of c with
      | Some d => parse_digits (10 * acc + d)%N s'
      | None => None
      end
  end.

Definition parse_N (s : string) : option N :=
  match s with
  | EmptyString => None
  | _ => parse_digits 0 s
  end.

Definition parse_Z (s : string) : option Z :=
  match s with
  | String c s' =>
      if Ascii.eqb c (Ascii.ascii_of_nat 45)
      then (fun n => (- Z.of_N n)%Z) <$> parse_N s'
      else Z.of_N <$> parse_N s
  | EmptyString => None
  end.

Definition demo_number_text (z : Z) : string := pretty z.

Definition demo_mol_text (m : string) : string :=
  "<rdkit.Chem.rdchem.Mol object>".

Definition demo_is_number (t : string) : bool :=
  match parse_Z t with Some _ => true | None => false end.

Definition demo_read_number (t : string) : value :=
  match parse_Z t with Some z => VNum z | None => VNone end.

Definition demo_is_bool (t : string) : bool :=
  existsb (String.eqb t) ["True"; "TRUE"; "true"; "False"; "FALSE"; "false"].

Definition demo_read_bool (t : string) : value :=
  if existsb (String.eqb t) ["True"; "TRUE"; "true"]
  then VNum 1 else VNum 0.

Definition demo_cell_text : value -> string :=
  cell_text demo_number_text demo_mol_text.

Definition demo_infer_column : list string -> list value :=
  infer_column demo_is_na demo_is_number demo_read_number
               demo_is_bool demo_read_bool.

(** A parser that makes a molecule of every str. *)
Definition demo_MolFromSmiles : callable := fun v =>
  match v with
  | VStr s => Ok (VMol s)
  | _ => Raise TypeError
  end.

(** A scaffold that answers the text of the molecule, a descriptor that
    answers its length, and a descriptor that raises. *)
Definition demo_scaffold : Annotation :=
  {| fn_str := "Murcko";
     fn_call := fun v => match v with
                         | VMol m => Ok (VStr m)
                         | _ => Raise TypeError
                         end |}.

Definition demo_descriptor : Annotation :=
  {| fn_str := "Len";
     fn_call := fun v => match v with
                         | VMol m => Ok (VNum (Z.of_nat (String.length m)))
                         | _ => Raise TypeError
                         end |}.

Definition demo_failing : Annotation :=
  {| fn_str := "Broken"; fn_call := fun _ => Raise (Raised "boom") |}.

(** A descriptor that answers the text of the molecule. *)
Definition demo_descriptor_text : Annotation :=
  {| fn_str := "Text";
     fn_call := fun v => match v with
                         | VMol m => Ok (VStr m)
                         | _ => Raise TypeError
                         end |}.

(** A scaffold that finds nothing and answers None. *)
Definition demo_no_scaffold : Annotation :=
  {| fn_str := "Nothing"; fn_call := fun _ => Ok VNone |}.

Definition demo_frame : DataFrame :=
  {| nrows := 2;
     columns := [("SMILES", [VStr "CCO"; VStr "c1ccccc1"]);
                 ("RDMol", [VMol "CCO"; VMol "c1ccccc1"])] |}.

Definition demo_store : DataSetTSV :=
  {| smilesCol := "SMILES"; molCol := "RDMol"; path := "data.tsv";
     _data := demo_frame |}.

Definition demo_world : world :=
  {| self := demo_store;
     disk := {[ "data.tsv" := to_csv demo_to_text demo_frame ]} |}.

(** A store with a descriptor column of numbers and a column of labels,
    each with a missing entry. *)
Definition demo_described_world : world :=
  {| self :=
       {| smilesCol := "SMILES"; molCol := "RDMol"; path := "described.tsv";
          _data :=
            {| nrows := 2;
               columns := [("SMILES", [VStr "CCO"; VStr "c1ccccc1"]);
                           ("RDMol", [VMol "CCO"; VMol "c1ccccc1"]);
                           ("Descriptor_Len", [VNum 3; VNone]);
                           ("Label", [VNone; VStr "ring"])] |} |};
     disk := ∅ |}.

(** A store with a column in which a string is empty, and one in which
    every string is a number written out. *)
Definition demo_bare_world : world :=
  {| self :=
       {| smilesCol := "SMILES"; molCol := "RDMol"; path := "bare.tsv";
          _data :=
            {| nrows := 2;
               columns := [("SMILES", [VStr "CCO"; VStr "c1ccccc1"]);
                           ("RDMol", [VMol "CCO"; VMol "c1ccccc1"]);
                           ("Scaffold_Murcko", [VStr ""; VStr "c1ccccc1"]);
                           ("Label", [VStr "12"; VStr "7"])] |} |};
     disk := ∅ |}.

(** The store after [addScaffolds([Murcko])]. *)
Definition demo_scaffold_world : world :=
  snd (addScaffolds demo_MolFromSmiles demo_to_text [demo_scaffold]
         demo_world).

(** A store whose scaffold column holds the values of the grouping
    example. *)
Definition demo_abc_world : world :=
  {| self :=
       {| smilesCol := "SMILES"; molCol := "RDMol"; path := "abc.tsv";
          _data :=
            {| nrows := 6;
               columns :=
                 [("Scaffold_Murcko",
                   [VStr "A"; VStr "A"; VStr "A"; VStr "B"; VStr "B";
                    VStr "C"])] |} |};
     disk := ∅ |}.

(** The column of the grouping example followed by a missing entry, and
    a store that has it as its scaffold column. *)
Definition demo_mixed_column : list value :=
  [VStr "A"; VStr "A"; VStr "A"; VStr "B"; VStr "B"; VStr "C"; VNone].

Definition demo_mixed_world : world :=
  {| self :=
       {| smilesCol := "SMILES"; molCol := "RDMol"; path := "mixed.tsv";
          _data :=
            {| nrows := 7;
               columns := [("Scaffold_Murcko", demo_mixed_column)] |} |};
     disk := ∅ |}.

(** A store whose scaffold column has a missing entry. *)
Definition demo_gap_world : world :=
  {| self :=
       {| smilesCol := "SMILES"; molCol := "RDMol"; path := "gap.tsv";
          _data :=
            {| nrows := 3;
               columns :=
                 [("Scaffold_Murcko", [VNone; VStr "A"; VStr "A"])] |} |};
     disk := ∅ |}.

(** Compound records of which the first and the last have the same key. *)
Definition demo_compounds : DataFrame :=
  {| nrows := 3;
     columns := [("InChIKey", [VStr "K1"; VStr "K2"; VStr "K1"]);
                 ("SMILES", [VStr "CCO"; VStr "CCN"; VStr "OCC"])] |}.

(** papyrus_filter for one accession key over a reader that gives these
    records in one piece, or that finds no Papyrus data. *)
Definition demo_filter (found drop_dups use_existing : bool)
  : ST pworld (DataFrame * string) :=
  papyrus_filter demo_to_text demo_read_column demo_read_names DataFrame
    (fun _ _ _ _ _ =>
       if found then Ok demo_compounds else Raise (Raised "no papyrus data"))
    (fun c _ => c) (fun c _ => c) (fun c => Ok c)
    ["P00533"] "high" "out" None drop_dups 100000 use_existing false false.

Definition demo_empty_disk : pworld := {| stdout := []; files := ∅ |}.

(** A file with a header and no rows. *)
Definition demo_header_only : gmap string tsv :=
  {[ "empty.tsv" := {| nrows := 0; columns := [("SMILES", [])] |} ]}.

(* ===================================================================== *)
(** ** Columns by name *)
(* ===================================================================== *)

Lemma assoc_set_same {A : Type} (key : string) (x : A) cols :
  assoc key (assoc_set key x cols) = Some x.
Proof.
  induction cols as [|[k y] rest IH]; simpl.
  - now rewrite String.eqb_refl.
  - destruct (String.eqb k key) eqn:E; simpl; now rewrite E.
Qed.

Lemma assoc_set_other {A : Type} (key key' : string) (x : A) cols :
  key' <> key -> assoc key' (assoc_set key x cols) = assoc key' cols.
Proof.
  intros Hne. induction cols as [|[k y] rest IH]; simpl.
  - destruct (String.eqb key key') eqn:E; [|reflexivity].
    apply String.eqb_eq in E. congruence.
  - destruct (String.eqb k key) eqn:E; simpl.
    + apply String.eqb_eq in E. subst k.
      destruct (String.eqb key key') eqn:E'; [|reflexivity].
      apply String.eqb_eq in E'. congruence.
    + now rewrite IH.
Qed.

Lemma assoc_In_names {A : Type} (key : string) (cols : list (string * A)) :
  In key (map fst cols) <-> assoc key cols <> None.
Proof.
  induction cols as [|[k y] rest IH]; simpl.
  - tauto.
  - destruct (String.eqb k key) eqn:E.
    + apply String.eqb_eq in E. split; [congruence | auto].
    + apply String.eqb_neq in E. rewrite <- IH. tauto.
Qed.

Lemma names_assoc_set {A : Type} (key : string) (x : A) cols :
  map fst (assoc_set key x cols)
  = if existsb (String.eqb key) (map fst cols) then map fst cols
    else (map fst cols ++ [key])%list.
Proof.
  induction cols as [|[k y] rest IH]; simpl; [reflexivity|].
  rewrite (String.eqb_sym key k).
  destruct (String.eqb k key) eqn:E; simpl.
  - reflexivity.
  - rewrite IH. now destruct (existsb _ _).
Qed.

(** A grouping column is not taken for a scaffold column: the ninth
    character differs. *)
Lemma group_name_not_scaffold (c : string) :
  startswith ("ScaffoldGroup_" +:+ c) "Scaffold_" = false.
Proof. reflexivity. Qed.

Lemma group_name_inj (c c' : string) :
  "ScaffoldGroup_" +:+ c = "ScaffoldGroup_" +:+ c' -> c = c'.
Proof. intros H. cbn in H. now inversion H. Qed.

(* ===================================================================== *)
(** ** What scaffold_group puts in each row *)
(* ===================================================================== *)

Lemma isin_In (v : value) (l : list value) : isin v l = true <-> In v l.
Proof.
  unfold isin. rewrite existsb_exists. split.
  - intros (w & Hw & E). apply bool_decide_eq_true in E. now subst.
  - intros H. exists v. split; [assumption|]. now apply bool_decide_eq_true.
Qed.

Lemma dedup_In (v : value) (l : list value) : In v (dedup l) <-> In v l.
Proof.
  induction l as [|x l IH]; simpl; [tauto|].
  rewrite filter_In, IH, negb_true_iff, bool_decide_eq_false.
  destruct (decide (v = x)) as [->|Hne]; [tauto|].
  split; [intros [H|[H _]]; auto | intros [H|H]; [congruence | auto]].
Qed.

Lemma rare_index_In (m : Z) (col : list value) (v : value) :
  In v (rare_index m (value_counts col))
  <-> In v col /\ isna v = false /\ (Z.of_nat (count v col) < m)%Z.
Proof.
  unfold rare_index, value_counts. rewrite in_map_iff. split.
  - intros ([v' n] & E & H). simpl in E. subst v'.
    apply filter_In in H as [H Hlt]. simpl in Hlt.
    apply in_map_iff in H as (v' & E & H). inversion E; subst v' n.
    apply dedup_In, filter_In in H as [H Hna].
    apply negb_true_iff in Hna. apply Z.ltb_lt in Hlt. auto.
  - intros (H & Hna & Hlt). exists (v, count v col). split; [reflexivity|].
    apply filter_In. split; [|now apply Z.ltb_lt].
    apply in_map_iff. exists v. split; [reflexivity|].
    apply dedup_In, filter_In. split; [assumption|]. now rewrite Hna.
Qed.

(** Row by row: a value that is present and occurs fewer than
    [mols_per_group] times becomes 'Other', every other entry stays. *)
Lemma scaffold_group_lookup (m : Z) (col : list value) (i : nat) (v : value) :
  col !! i = Some v ->
  scaffold_group m col !! i
  = Some (if negb (isna v) && (Z.of_nat (count v col) <? m)%Z
          then VStr "Other" else v).
Proof.
  intros Hi. unfold scaffold_group. rewrite list_lookup_fmap, Hi. simpl.
  f_equal.
  assert (Hin : In v col).
  { apply list_elem_of_In. eapply list_elem_of_lookup_2. exact Hi. }
  destruct (isin v _) eqn:E.
  - apply isin_In, rare_index_In in E as (_ & Hna & Hlt).
    apply Z.ltb_lt in Hlt. now rewrite Hna, Hlt.
  - destruct (negb (isna v) && _) eqn:E'; [|reflexivity].
    apply andb_true_iff in E' as [Hna Hlt].
    apply negb_true_iff in Hna. apply Z.ltb_lt in Hlt.
    assert (isin v (rare_index m (value_counts col)) = true) as E''.
    { apply isin_In, rare_index_In. auto. }
    congruence.
Qed.

Lemma scaffold_group_length (m : Z) (col : list value) :
  length (scaffold_group m col) = length col.
Proof. unfold scaffold_group. now rewrite length_map. Qed.

(* ===================================================================== *)
(** ** Columns as long as the index *)
(* ===================================================================== *)

Lemma map_result_length {A B : Type} (f : A -> result B) (l : list A)
  (l' : list B) :
  map_result f l = Ok l' -> length l' = length l.
Proof.
  revert l'. induction l as [|x l IH]; simpl; intros l' H.
  - now inversion H.
  - destruct (f x) as [y|e]; [|discriminate].
    destruct (map_result f l) as [ys|e]; [|discriminate].
    inversion H. simpl. now rewrite (IH ys).
Qed.

Lemma getitem_wf (df : DataFrame) (key : string) (vs : list value) :
  frame_wf df -> getitem df key = Ok vs -> length vs = nrows df.
Proof.
  unfold frame_wf, getitem. intros Hwf.
  induction Hwf as [|[k y] cols Hc Hwf IH]; simpl; [discriminate|].
  destruct (String.eqb k key); [|exact IH].
  intros E. inversion E. now subst.
Qed.

Lemma assoc_set_Forall {A : Type} (P : A -> Prop) (key : string) (x : A)
  (cols : list (string * A)) :
  P x ->
  Forall (fun c => P (snd c)) cols ->
  Forall (fun c => P (snd c)) (assoc_set key x cols).
Proof.
  intros Hx Hall. induction Hall as [|[k y] cols Hc Hall IH]; simpl.
  - now repeat constructor.
  - destruct (String.eqb k key); constructor; assumption.
Qed.

Lemma setitem_wf (df : DataFrame) (key : string) (vs : list value) :
  frame_wf df -> length vs = nrows df -> frame_wf (setitem df key vs).
Proof.
  unfold frame_wf, setitem. simpl. intros Hwf Hlen.
  now apply (assoc_set_Forall (fun vs => length vs = nrows df)).
Qed.

Lemma apply_rows_wf (df : DataFrame) (key : string) (f : callable)
  (col : list value) :
  frame_wf df -> apply_rows df key f = Ok col -> length col = nrows df.
Proof.
  unfold apply_rows. intros Hwf.
  destruct (nrows df) as [|n] eqn:En.
  - intros E. now inversion E.
  - destruct (getitem df key) as [vs|e] eqn:Eg; simpl; [|discriminate].
    intros E. apply map_result_length in E.
    rewrite E, (getitem_wf df key vs Hwf Eg). exact En.
Qed.

Lemma setitem_list_wf (df df' : DataFrame) (key : string)
  (data : list value) :
  frame_wf df -> setitem_list df key data = Ok df' -> frame_wf df'.
Proof.
  unfold setitem_list. intros Hwf.
  destruct ((nrows df =? 0) && negb (length data =? 0)).
  - intros E. inversion E. unfold frame_wf. simpl.
    apply (assoc_set_Forall (fun vs => length vs = length data));
      [reflexivity|].
    apply Forall_forall. intros c Hc.
    apply list_elem_of_In, in_map_iff in Hc as (c' & <- & _). simpl.
    apply length_replicate.
  - destruct (length data =? nrows df) eqn:El; [|discriminate].
    apply Nat.eqb_eq in El. intros E. inversion E.
    now apply setitem_wf.
Qed.

Lemma drop_wf (df df' : DataFrame) (key : string) :
  frame_wf df -> drop df key = Ok df' -> frame_wf df'.
Proof.
  unfold drop. intros Hwf. destruct (existsb _ _); [|discriminate].
  intros E. inversion E. unfold frame_wf in *. simpl.
  rewrite Forall_forall in *. intros c Hc. apply Hwf.
  apply list_elem_of_In in Hc. apply filter_In in Hc as [Hc _].
  now apply list_elem_of_In.
Qed.

(* ===================================================================== *)
(** ** Running the methods *)
(* ===================================================================== *)

(** Unfolds the plumbing of a computation. *)
Ltac st_unfold :=
  unfold mbind, ST_bind, mret, ST_ret, lift, get_self, set_data, write_file;
  simpl.

Lemma select_present (df : DataFrame) (keys : list string) :
  (forall k, In k keys -> assoc k (columns df) <> None) ->
  exists cols,
    select df keys = Ok {| nrows := nrows df; columns := cols |}
    /\ map fst cols = keys.
Proof.
  unfold select. induction keys as [|k keys IH]; intros Hall.
  - exists []. split; reflexivity.
  - destruct IH as (cols & Hsel & Hn).
    { intros k' Hk'. apply Hall. now right. }
    specialize (Hall k (or_introl eq_refl)).
    destruct (assoc k (columns df)) as [vs|] eqn:Ek; [|congruence].
    exists ((k, vs) :: cols). simpl. unfold getitem at 1. rewrite Ek. simpl.
    destruct (map_result _ keys) as [cols'|e] eqn:Em; simpl in Hsel;
      [|discriminate].
    inversion Hsel; subst cols'. simpl. now rewrite Hn.
Qed.

Section StoreFacts.

Variable MolFromSmiles : callable.
Variable to_text : value -> string.
Variable read_column : list string -> list value.
Variable read_names : list string -> list string.

Lemma save_run (arg : option string) (w : world) :
  save to_text arg w
  = (Ok tt,
     saved to_text w (_data (self w))
       match arg with
       | Some p => if truthy p then p else path (self w)
       | None => path (self w)
       end).
Proof.
  unfold save, saved, with_data. st_unfold.
  destruct w as [[sc mc p d] fs]; reflexivity.
Qed.

(** The scaffold columns as the code finds them: every column whose
    name starts with [Scaffold_]. *)
Lemma getScaffolds_run (includeMols : bool) (w : world) :
  exists cols,
    getScaffolds includeMols w
    = (Ok {| nrows := nrows (_data (self w)); columns := cols |}, w)
    /\ map fst cols
       = List.filter (fun col => startswith col "Scaffold_")
                     (names (_data (self w))).
Proof.
  destruct (select_present (_data (self w))
              (List.filter (fun col => startswith col "Scaffold_")
                           (names (_data (self w)))))
    as (cols & Hsel & Hn).
  { intros k Hk.
    apply (List.filter_In (fun col => startswith col "Scaffold_")) in Hk
      as [Hk _].
    now apply assoc_In_names. }
  exists cols. split; [|exact Hn].
  unfold getScaffolds, getScaffoldNames. st_unfold.
  destruct includeMols; now rewrite Hsel.
Qed.

Lemma group_columns_run (m : Z) (keys : list string) :
  forall w : world,
    (forall k, In k keys ->
               startswith k "Scaffold_" = true
               /\ assoc k (columns (_data (self w))) <> None) ->
    exists df',
      group_columns m keys w = (Ok tt, with_data w df')
      /\ nrows df' = nrows (_data (self w))
      /\ (forall k col,
             In k keys ->
             assoc k (columns (_data (self w))) = Some col ->
             assoc ("ScaffoldGroup_" +:+ k) (columns df')
             = Some (scaffold_group m col))
      /\ (forall key,
             (forall k, In k keys -> key <> "ScaffoldGroup_" +:+ k) ->
             assoc key (columns df')
             = assoc key (columns (_data (self w))))
      /\ (frame_wf (_data (self w)) -> frame_wf df').
Proof.
  induction keys as [|k keys IH]; intros w Hall.
  - exists (_data (self w)). repeat split.
    + simpl. unfold mret, ST_ret, with_data.
      destruct w as [[sc mc p d] fs]; reflexivity.
    + intros k col [].
    + auto.
  - destruct (Hall k (or_introl eq_refl)) as [Hk Hsome].
    destruct (assoc k (columns (_data (self w)))) as [col|] eqn:Ek;
      [clear Hsome | congruence].
    set (df1 := setitem (_data (self w)) ("ScaffoldGroup_" +:+ k)
                        (scaffold_group m col)).
    assert (Hkeep : forall k', startswith k' "Scaffold_" = true ->
              assoc k' (columns df1) = assoc k' (columns (_data (self w)))).
    { intros k' Hk'. unfold df1, setitem. simpl.
      apply assoc_set_other. intros ->.
      now rewrite group_name_not_scaffold in Hk'. }
    destruct (IH (with_data w df1))
      as (df' & Hrun & Hn & Hgrp & Hfr & Hwf).
    { intros k' Hk'. destruct (Hall k' (or_intror Hk')) as [Hs Hp].
      split; [assumption|]. simpl. now rewrite Hkeep. }
    exists df'. repeat split.
    + simpl. st_unfold. unfold getitem. rewrite Ek. simpl.
      fold df1. rewrite Hrun. reflexivity.
    + rewrite Hn. reflexivity.
    + intros k' col' [<-|Hk'] Hcol'.
      * assert (col' = col) as -> by congruence.
        destruct (in_dec String.string_dec k keys) as [Hin|Hnin].
        -- apply Hgrp; [assumption|]. simpl. now rewrite Hkeep.
        -- rewrite Hfr.
           ++ simpl. apply assoc_set_same.
           ++ intros k' Hk' E. apply group_name_inj in E. congruence.
      * apply Hgrp; [assumption|]. simpl.
        destruct (Hall k' (or_intror Hk')) as [Hs _]. now rewrite Hkeep.
    + intros key Hkey. rewrite Hfr.
      * simpl. apply assoc_set_other. apply Hkey. now left.
      * intros k' Hk'. apply Hkey. now right.
    + intros Hwf0. apply Hwf. simpl. unfold df1.
      apply setitem_wf; [assumption|].
      rewrite scaffold_group_length.
      apply (getitem_wf _ k); [assumption|].
      unfold getitem. now rewrite Ek.
Qed.

(** createScaffoldGroups always completes: it gives every column whose
    name starts with [Scaffold_] its grouping column, touches no other
    column, and saves once. *)
Lemma createScaffoldGroups_run (m : Z) (w : world) :
  exists df',
    createScaffoldGroups to_text m w
    = (Ok tt, saved to_text w df' (path (self w)))
    /\ nrows df' = nrows (_data (self w))
    /\ (forall k col,
           startswith k "Scaffold_" = true ->
           assoc k (columns (_data (self w))) = Some col ->
           assoc ("ScaffoldGroup_" +:+ k) (columns df')
           = Some (scaffold_group m col))
    /\ (forall key,
           (forall k, startswith k "Scaffold_" = true ->
                      In k (names (_data (self w))) ->
                      key <> "ScaffoldGroup_" +:+ k) ->
           assoc key (columns df')
           = assoc key (columns (_data (self w))))
    /\ (frame_wf (_data (self w)) -> frame_wf df').
Proof.
  destruct (getScaffolds_run false w) as (cols & Hget & Hn).
  set (keys := List.filter (fun col => startswith col "Scaffold_")
                           (names (_data (self w)))) in *.
  assert (Hkeys : forall k, In k keys <->
            In k (names (_data (self w)))
            /\ startswith k "Scaffold_" = true).
  { intros k. unfold keys.
    apply (List.filter_In (fun col => startswith col "Scaffold_")). }
  destruct (group_columns_run m keys w)
    as (df' & Hrun & Hrows & Hgrp & Hfr & Hwf).
  { intros k Hk. apply Hkeys in Hk as [Hin Hs]. split; [assumption|].
    now apply assoc_In_names. }
  exists df'. repeat split.
  - unfold createScaffoldGroups.
    unfold mbind at 1, ST_bind at 1. rewrite Hget.
    unfold mbind at 1, ST_bind at 1. unfold names at 1. simpl columns.
    rewrite Hn, Hrun. rewrite save_run. reflexivity.
  - exact Hrows.
  - intros k col Hs Hcol. apply Hgrp; [|assumption].
    apply Hkeys. split; [|assumption].
    apply assoc_In_names. congruence.
  - intros key Hkey. apply Hfr. intros k Hk.
    apply Hkeys in Hk as [Hin Hs]. now apply Hkey.
  - exact Hwf.
Qed.

End StoreFacts.

(* ===================================================================== *)
(** ** Scaffold groups *)
(* ===================================================================== *)

Section Grouping.

Variable to_text : value -> string.

(** C1, as the code has it: createScaffoldGroups completes and, for
    every column [c] whose name starts with [Scaffold_] and every minimum
    group size [m], the column [ScaffoldGroup_c] has a row for every row of
    [c] and holds, in each row whose scaffold value is a string [s], the
    string [s] when [s] occurs at least [m] times in [c] and ['Other'] when
    it occurs fewer than [m] times; in a column that holds a string, each
    row whose scaffold value is missing holds the missing entry, whatever
    [m] is. *)
Theorem createScaffoldGroups_threshold
  (w : world) (m : Z) (c : string) (col : list value) :
  startswith c "Scaffold_" = true ->
  getitem (_data (self w)) c = Ok col ->
  exists (w' : world) (g : list value),
    createScaffoldGroups to_text m w = (Ok tt, w')
    /\ getitem (_data (self w')) ("ScaffoldGroup_" +:+ c) = Ok g
    /\ length g = length col
    /\ (forall (i : nat) (s : string),
          col !! i = Some (VStr s) ->
          g !! i
          = Some (if (m <=? Z.of_nat (count (VStr s) col))%Z
                  then VStr s else VStr "Other"))
    /\ ((exists s, In (VStr s) col) ->
        forall i : nat, col !! i = Some VNone -> g !! i = Some VNone).
Proof.
  intros Hc Hcol.
  destruct (createScaffoldGroups_run to_text m w)
    as (df' & Hrun & _ & Hgrp & _).
  unfold getitem in Hcol.
  destruct (assoc c (columns (_data (self w)))) as [col'|] eqn:Ec;
    [|discriminate].
  inversion Hcol; subst col'.
  exists (saved to_text w df' (path (self w))), (scaffold_group m col).
  repeat split.
  - exact Hrun.
  - unfold getitem. simpl. now rewrite (Hgrp c col Hc Ec).
  - apply scaffold_group_length.
  - intros i s Hi. rewrite (scaffold_group_lookup m col i _ Hi). simpl.
    rewrite Z.leb_antisym. now destruct (_ <? _)%Z.
  - intros _ i Hi. now rewrite (scaffold_group_lookup m col i _ Hi).
Qed.

End Grouping.

Lemma createScaffoldGroups_threshold_witness :
  exists (w' : world) (g : list value),
    createScaffoldGroups demo_to_text 3 demo_mixed_world = (Ok tt, w')
    /\ getitem (_data (self w')) "ScaffoldGroup_Scaffold_Murcko" = Ok g
    /\ length g = 7
    /\ (forall (i : nat) (s : string),
          demo_mixed_column !! i = Some (VStr s) ->
          g !! i
          = Some (if (3 <=? Z.of_nat (count (VStr s) demo_mixed_column))%Z
                  then VStr s else VStr "Other"))
    /\ ((exists s, In (VStr s) demo_mixed_column) ->
        forall i : nat,
          demo_mixed_column !! i = Some VNone -> g !! i = Some VNone).
Proof.
  apply (createScaffoldGroups_threshold demo_to_text demo_mixed_world 3
           "Scaffold_Murcko" demo_mixed_column); reflexivity.
Defined.

(** What the call gives on the column [A, A, A, B, B, C, None] with
    m = 3. *)
Example createScaffoldGroups_mixed_column :
  getitem (_data (self (snd (createScaffoldGroups demo_to_text 3
                                demo_mixed_world))))
          "ScaffoldGroup_Scaffold_Murcko"
  = Ok [VStr "A"; VStr "A"; VStr "A"; VStr "Other"; VStr "Other";
        VStr "Other"; VNone].
Proof. vm_compute. reflexivity. Qed.

(** The grouping example of the specification, for m = 3, 2 and 1. *)
Example scaffold_group_example_3 :
  scaffold_group 3
    [VStr "A"; VStr "A"; VStr "A"; VStr "B"; VStr "B"; VStr "C"]
  = [VStr "A"; VStr "A"; VStr "A"; VStr "Other"; VStr "Other"; VStr "Other"].
Proof. vm_compute. reflexivity. Qed.

Example scaffold_group_example_2 :
  scaffold_group 2
    [VStr "A"; VStr "A"; VStr "A"; VStr "B"; VStr "B"; VStr "C"]
  = [VStr "A"; VStr "A"; VStr "A"; VStr "B"; VStr "B"; VStr "Other"].
Proof. vm_compute. reflexivity. Qed.

Example scaffold_group_example_1 :
  scaffold_group 1
    [VStr "A"; VStr "A"; VStr "A"; VStr "B"; VStr "B"; VStr "C"]
  = [VStr "A"; VStr "A"; VStr "A"; VStr "B"; VStr "B"; VStr "C"].
Proof. vm_compute. reflexivity. Qed.

(** With m at most 1 nothing is rare. *)
Lemma scaffold_group_noop (m : Z) (col : list value) :
  (m <= 1)%Z -> scaffold_group m col = col.
Proof.
  intros Hm. apply list_eq. intros i.
  destruct (col !! i) as [v|] eqn:Hi.
  - rewrite (scaffold_group_lookup m col i v Hi).
    assert (Hin : In v col).
    { apply list_elem_of_In. eapply list_elem_of_lookup_2. exact Hi. }
    assert (0 < count v col).
    { unfold count. destruct (List.filter _ col) eqn:E; simpl; [|lia].
      exfalso.
      assert (In v (List.filter (fun w => bool_decide (w = v)) col)) as Hf.
      { apply filter_In. split; [assumption|]. now apply bool_decide_eq_true. }
      rewrite E in Hf. destruct Hf. }
    assert ((Z.of_nat (count v col) <? m)%Z = false) as ->
        by (apply Z.ltb_ge; lia).
    now rewrite andb_false_r.
  - apply lookup_ge_None. rewrite scaffold_group_length.
    now apply lookup_ge_None.
Qed.

(** C1 as stated fails on a missing entry: in the column [None, A, A] the
    missing entry occurs once, fewer than m = 2 times, and its row keeps the
    missing entry instead of 'Other'. *)
Lemma createScaffoldGroups_missing_entry :
  getitem (_data (self (snd (createScaffoldGroups demo_to_text 2
                                demo_gap_world))))
          "ScaffoldGroup_Scaffold_Murcko"
  = Ok [VNone; VStr "A"; VStr "A"]
  /\ (Z.of_nat (count VNone [VNone; VStr "A"; VStr "A"]) < 2)%Z
  /\ ~ (forall (col g : list value) (i : nat) (v : value),
          getitem (_data (self demo_gap_world)) "Scaffold_Murcko" = Ok col ->
          getitem (_data (self (snd (createScaffoldGroups demo_to_text 2
                                        demo_gap_world))))
                  "ScaffoldGroup_Scaffold_Murcko" = Ok g ->
          col !! i = Some v ->
          g !! i = Some (if (2 <=? Z.of_nat (count v col))%Z
                         then v else VStr "Other")).
Proof.
  split; [vm_compute; reflexivity|].
  split; [vm_compute; reflexivity|].
  intros H.
  specialize (H [VNone; VStr "A"; VStr "A"] [VNone; VStr "A"; VStr "A"]
                0 VNone).
  assert (Some VNone = Some (VStr "Other")) as E.
  { apply H; vm_compute; reflexivity. }
  discriminate E.
Qed.

(** C8, at a concrete table: after [addScaffolds([Murcko])] the table has
    the scaffold column [Scaffold_Murcko] and its parsed-molecule
    counterpart [Scaffold_Murcko_RDMol]; createScaffoldGroups then makes a
    grouping column for both, the counterpart included. *)
Theorem createScaffoldGroups_groups_molecule_columns :
  names (_data (self demo_scaffold_world))
  = ["SMILES"; "RDMol"; "Scaffold_Murcko"; "Scaffold_Murcko_RDMol"]
  /\ fst (createScaffoldGroups demo_to_text 1 demo_scaffold_world) = Ok tt
  /\ names (_data (self (snd (createScaffoldGroups demo_to_text 1
                                demo_scaffold_world))))
     = ["SMILES"; "RDMol"; "Scaffold_Murcko"; "Scaffold_Murcko_RDMol";
        "ScaffoldGroup_Scaffold_Murcko";
        "ScaffoldGroup_Scaffold_Murcko_RDMol"].
Proof. repeat split; vm_compute; reflexivity. Qed.

(* ===================================================================== *)
(** ** Reading the scaffold columns *)
(* ===================================================================== *)

(** The two branches of getScaffolds select the same columns. *)
Lemma getScaffolds_branches_agree (w : world) :
  getScaffolds true w = getScaffolds false w.
Proof. reflexivity. Qed.

(** C3, at a concrete table: with the scaffold column [Scaffold_Murcko]
    and its parsed-molecule counterpart [Scaffold_Murcko_RDMol] in the
    table, getScaffolds returns both columns whether the flag is set or
    not, so the two modes do not differ. *)
Theorem getScaffolds_flag_has_no_effect :
  (names <$> fst (getScaffolds false demo_scaffold_world))
  = Ok ["Scaffold_Murcko"; "Scaffold_Murcko_RDMol"]
  /\ (names <$> fst (getScaffolds true demo_scaffold_world))
     = Ok ["Scaffold_Murcko"; "Scaffold_Murcko_RDMol"]
  /\ getScaffolds true demo_scaffold_world
     = getScaffolds false demo_scaffold_world.
Proof. repeat split; vm_compute; reflexivity. Qed.

(* ===================================================================== *)
(** ** Construction and removal *)
(* ===================================================================== *)

Section Construction.

Variable MolFromSmiles : callable.
Variable to_text : value -> string.
Variable read_column : list string -> list value.
Variable read_names : list string -> list string.

(** C2, what the code does: when no file exists at the path, [_data] is
    None and the call that adds the molecule column to it raises, so the
    constructor does not return a store. *)
Theorem init_without_file_raises
  (path mol_col : string) (disk : gmap string tsv) :
  disk !! path = None ->
  init MolFromSmiles read_column read_names path mol_col disk
  = Raise TypeError.
Proof. intros H. unfold init. rewrite H. reflexivity. Qed.

(** C6: removeData with a name that is not a column raises KeyError for
    that name; the table in memory and every file on disk are as before
    the call. *)
Theorem removeData_missing_column (w : world) (name : string) :
  ~ In name (names (_data (self w))) ->
  removeData to_text name w = (Raise (KeyError name), w).
Proof.
  intros Hnot. unfold removeData. st_unfold. unfold drop.
  destruct (existsb (String.eqb name) (names (_data (self w)))) eqn:E.
  - exfalso. apply Hnot. apply existsb_exists in E as (k & Hk & Ek).
    apply String.eqb_eq in Ek. now subst.
  - reflexivity.
Qed.

End Construction.

Lemma init_without_file_raises_witness :
  init demo_MolFromSmiles demo_read_column demo_read_names
       "fresh.tsv" "SMILES" ∅
  = Raise TypeError.
Proof.
  apply (init_without_file_raises demo_MolFromSmiles demo_read_column
           demo_read_names "fresh.tsv" "SMILES" ∅).
  reflexivity.
Defined.

Lemma removeData_missing_column_witness :
  removeData demo_to_text "Descriptor_MW" demo_world
  = (Raise (KeyError "Descriptor_MW"), demo_world).
Proof.
  apply (removeData_missing_column demo_to_text demo_world "Descriptor_MW").
  simpl. intros [H|[H|[]]]; discriminate H.
Defined.

(* ===================================================================== *)
(** ** Saving and loading *)
(* ===================================================================== *)


Lemma assoc_zip_In {A : Type} (key : string) (ns : list string)
  (xs : list A) (x : A) :
  assoc key (zip ns xs) = Some x -> In x xs.
Proof.
  revert xs. induction ns as [|n ns IH]; intros [|y xs]; simpl;
    try discriminate.
  destruct (String.eqb n key).
  - intros E. inversion E. now left.
  - intros E. right. now apply IH.
Qed.

Lemma assoc_Some_In {A : Type} (key : string) (cols : list (string * A))
  (x : A) :
  assoc key cols = Some x -> In (key, x) cols.
Proof.
  induction cols as [|[k y] cols IH]; simpl; [discriminate|].
  destruct (String.eqb k key) eqn:E.
  - apply String.eqb_eq in E. intros H. inversion H. subst. now left.
  - intros H. right. now apply IH.
Qed.

Section RoundTrip.

Variable MolFromSmiles : callable.
Variable to_text : value -> string.
Variable read_column : list string -> list value.
Variable read_names : list string -> list string.







(** Whatever the text conventions, as long as reading text never makes a
    molecule object: a table with a molecule object outside the identity
    molecule column is not what loading gives after saving it. *)
Lemma load_loses_molecule_objects
  (w w' : world) (s' : DataSetTSV) (k m : string) (vs : list value) :
  (forall fields m', ~ In (VMol m') (read_column fields)) ->
  k <> "RDMol" ->
  getitem (_data (self w)) k = Ok vs ->
  In (VMol m) vs ->
  save to_text None w = (Ok tt, w') ->
  init MolFromSmiles read_column read_names
       (path (self w)) (smilesCol (self w)) (disk w') = Ok s' ->
  _data s' <> _data (self w).
Proof.
  intros Hread Hk Hvs Hin Hsave Hinit Heq.
  rewrite save_run in Hsave. inversion Hsave; subst w'. clear Hsave.
  unfold init, saved in Hinit. simpl in Hinit.
  rewrite lookup_insert_eq in Hinit.
  destruct (read_csv read_column read_names (to_csv to_text (_data (self w))))
    as [df|e] eqn:Er; simpl in Hinit; [|discriminate].
  destruct (getitem df (smilesCol (self w))) as [sm|e]; simpl in Hinit;
    [|discriminate].
  destruct (map_result MolFromSmiles sm) as [ms|e]; simpl in Hinit;
    [|discriminate].
  inversion Hinit; subst s'. simpl in Heq. clear Hinit.
  unfold getitem in Hvs. rewrite <- Heq in Hvs. simpl in Hvs.
  rewrite assoc_set_other in Hvs by assumption.
  unfold read_csv in Er.
  destruct (columns (to_csv to_text (_data (self w)))) eqn:Ec;
    [discriminate|].
  inversion Er; subst df. clear Er. simpl in Hvs.
  destruct (assoc k _) as [vs'|] eqn:Ea; [|discriminate].
  inversion Hvs; subst vs'.
  apply assoc_zip_In in Ea.
  change (In vs (map (fun c : string * list string => read_column (snd c))
                     (p :: l))) in Ea.
  apply in_map_iff in Ea as (c & Hc & _).
  apply (Hread (snd c) m). now rewrite Hc.
Qed.

End RoundTrip.

Section TextRoundTrip.

Variable MolFromSmiles : callable.
Variable number_text : Z -> string.
Variable mol_text : string -> string.
Variable is_na : string -> bool.
Variable is_number : string -> bool.
Variable read_number : string -> value.
Variable is_bool : string -> bool.
Variable read_bool : string -> value.
Variable read_names : list string -> list string.

(** What the text conventions are taken to do cell by cell: read_csv reads a
    number written by to_csv as that number and not as a missing entry, it
    reads the empty field as a missing entry, and it reads a header of
    distinct names none of which is empty as it is. *)
Hypothesis number_is_number : forall z, is_number (number_text z) = true.
Hypothesis number_read : forall z, read_number (number_text z) = VNum z.
Hypothesis number_not_na : forall z, is_na (number_text z) = false.
Hypothesis empty_is_na : is_na "" = true.
Hypothesis header_read :
  forall l : list string, NoDup l -> ~ In "" l -> read_names l = l.




End TextRoundTrip.













(** The two conditions on a column of strings are needed: an empty string
    (the scaffold of a molecule without a ring) is loaded as a missing
    entry, and a column every string of which is a number written out is
    loaded as numbers. *)
Example save_then_load_bare_strings :
  fst (save demo_cell_text None demo_bare_world) = Ok tt
  /\ (s' ← init demo_MolFromSmiles demo_infer_column demo_read_names
             "bare.tsv" "SMILES"
             (disk (snd (save demo_cell_text None demo_bare_world)));
      getitem (_data s') "Scaffold_Murcko")
     = Ok [VNone; VStr "c1ccccc1"]
  /\ (s' ← init demo_MolFromSmiles demo_infer_column demo_read_names
             "bare.tsv" "SMILES"
             (disk (snd (save demo_cell_text None demo_bare_world)));
      getitem (_data s') "Label")
     = Ok [VNum 12; VNum 7].
Proof. repeat split; vm_compute; reflexivity. Qed.

(** A column of numbers with a missing entry and a column of labels with a
    missing entry are loaded as they were saved. *)
Example save_then_load_described :
  (s' ← init demo_MolFromSmiles demo_infer_column demo_read_names
            "described.tsv" "SMILES"
            (disk (snd (save demo_cell_text None demo_described_world)));
   Ok (_data s'))
  = Ok {| nrows := 2;
          columns := [("SMILES", [VStr "CCO"; VStr "c1ccccc1"]);
                      ("RDMol", [VMol "CCO"; VMol "c1ccccc1"]);
                      ("Descriptor_Len", [VNum 3; VNone]);
                      ("Label", [VNone; VStr "ring"])] |}.
Proof. vm_compute. reflexivity. Qed.

(* ===================================================================== *)
(** ** What every mutating call leaves alone *)
(* ===================================================================== *)

Lemma steady_refl (w : world) : steady w w.
Proof. unfold steady. auto. Qed.

Lemma steady_trans (w1 w2 w3 : world) :
  steady w1 w2 -> steady w2 w3 -> steady w1 w3.
Proof.
  intros (Hs & Hm & Hp & Hn & Hd) (Hs' & Hm' & Hp' & Hn' & Hd').
  unfold steady. repeat split; try congruence.
  - intros Hpos. rewrite Hn', Hn; auto. rewrite Hn; auto.
  - intros q Hq. rewrite Hd', Hd; auto. congruence.
Qed.

Lemma names_setitem (df : DataFrame) (key : string) (vs : list value)
  (k : string) :
  In k (names (setitem df key vs)) <-> k = key \/ In k (names df).
Proof.
  unfold names, setitem. simpl. rewrite !assoc_In_names.
  destruct (String.eqb_spec k key) as [->|Hne].
  - rewrite assoc_set_same. split; [auto | discriminate].
  - rewrite assoc_set_other by assumption. tauto.
Qed.

Section Frames.

Variable MolFromSmiles : callable.
Variable to_text : value -> string.

Lemma steady_with_data (w : world) (df : DataFrame) :
  (0 < nrows (_data (self w)) -> nrows df = nrows (_data (self w))) ->
  steady w (with_data w df).
Proof. intros H. unfold steady. simpl. auto. Qed.

Lemma steady_saved (w : world) (df : DataFrame) :
  (0 < nrows (_data (self w)) -> nrows df = nrows (_data (self w))) ->
  steady w (saved to_text w df (path (self w))).
Proof.
  intros H. unfold steady. simpl. repeat split; auto.
  intros q Hq. now apply lookup_insert_ne.
Qed.

Lemma synced_saved (w : world) (df : DataFrame) :
  synced to_text (saved to_text w df (path (self w))).
Proof. unfold synced. simpl. apply lookup_insert_eq. Qed.

Lemma AddMoleculeColumnToFrame_nrows (df df' : DataFrame) (k k' : string) :
  AddMoleculeColumnToFrame MolFromSmiles (Some df) k k' = Ok df' ->
  nrows df' = nrows df
  /\ forall c, In c (names df') <-> c = k' \/ In c (names df).
Proof.
  simpl. destruct (getitem df k) as [sm|e]; simpl; [|discriminate].
  destruct (map_result MolFromSmiles sm) as [ms|e]; simpl; [|discriminate].
  intros E. inversion E. split; [reflexivity|].
  intros c. apply names_setitem.
Qed.

(** One turn of the loop of addDescriptors. *)
Lemma addDescriptors_step (d : Annotation) (rest : list Annotation)
  (w : world) :
  addDescriptors to_text (d :: rest) w
  = match apply_rows (_data (self w)) (molCol (self w)) (fn_call d) with
    | Ok col =>
        addDescriptors to_text rest
          (saved to_text w
             (setitem (_data (self w)) ("Descriptor_" +:+ fn_str d) col)
             (path (self w)))
    | Raise e => (Raise e, w)
    end.
Proof.
  simpl. st_unfold.
  destruct (apply_rows _ _ _) as [col|e]; reflexivity.
Qed.

(** One turn of the loop of addScaffolds. *)
Lemma addScaffolds_step (f : Annotation) (rest : list Annotation)
  (w : world) :
  addScaffolds MolFromSmiles to_text (f :: rest) w
  = match apply_rows (_data (self w)) (molCol (self w)) (fn_call f) with
    | Ok col =>
        let df := setitem (_data (self w))
                          ("Scaffold_" +:+ fn_str f) col in
        match AddMoleculeColumnToFrame MolFromSmiles (Some df)
                ("Scaffold_" +:+ fn_str f)
                ("Scaffold_" +:+ fn_str f +:+ "_" +:+ molCol (self w)) with
        | Ok df' =>
            addScaffolds MolFromSmiles to_text rest
              (saved to_text w df' (path (self w)))
        | Raise e => (Raise e, with_data w df)
        end
    | Raise e => (Raise e, w)
    end.
Proof.
  cbn [addScaffolds]. unfold mbind at 1, ST_bind at 1, get_self.
  unfold mbind at 1, ST_bind at 1, lift at 1.
  destruct (apply_rows _ _ _) as [col|e]; [|reflexivity].
  unfold mbind at 1, ST_bind at 1, set_data at 1.
  unfold mbind at 1, ST_bind at 1, lift at 1.
  cbv zeta.
  destruct (AddMoleculeColumnToFrame _ _ _ _) as [df'|e]; [|reflexivity].
  reflexivity.
Qed.

Lemma addDescriptors_steady (ds : list Annotation) :
  forall w, steady w (snd (addDescriptors to_text ds w)).
Proof.
  induction ds as [|d ds IH]; intros w.
  - apply steady_refl.
  - rewrite addDescriptors_step.
    destruct (apply_rows _ _ _) as [col|e]; [|apply steady_refl].
    eapply steady_trans; [|apply IH].
    apply steady_saved. reflexivity.
Qed.

Lemma addScaffolds_steady (fs : list Annotation) :
  forall w, steady w (snd (addScaffolds MolFromSmiles to_text fs w)).
Proof.
  induction fs as [|f fs IH]; intros w.
  - apply steady_refl.
  - rewrite addScaffolds_step.
    destruct (apply_rows _ _ _) as [col|e]; [|apply steady_refl].
    cbv zeta.
    destruct (AddMoleculeColumnToFrame _ _ _ _) as [df'|e] eqn:E.
    + eapply steady_trans; [|apply IH].
      apply steady_saved. intros _.
      apply AddMoleculeColumnToFrame_nrows in E as [E _]. exact E.
    + apply steady_with_data. reflexivity.
Qed.

Lemma addData_steady (name : string) (data : list value) (w : world) :
  steady w (snd (addData to_text name data w)).
Proof.
  unfold addData. st_unfold. unfold setitem_list.
  destruct (nrows (_data (self w)) =? 0) eqn:E0; simpl.
  - apply Nat.eqb_eq in E0.
    destruct (negb (length data =? 0)); simpl.
    + apply (steady_saved w). lia.
    + destruct (length data =? nrows (_data (self w))); simpl.
      * apply (steady_saved w). reflexivity.
      * apply steady_refl.
  - destruct (length data =? nrows (_data (self w))); simpl.
    + apply (steady_saved w). reflexivity.
    + apply steady_refl.
Qed.

Lemma removeData_steady (name : string) (w : world) :
  steady w (snd (removeData to_text name w)).
Proof.
  unfold removeData. st_unfold. unfold drop.
  destruct (existsb _ _); simpl.
  - apply (steady_saved w). reflexivity.
  - apply steady_refl.
Qed.

Lemma createScaffoldGroups_steady (m : Z) (w : world) :
  steady w (snd (createScaffoldGroups to_text m w)).
Proof.
  destruct (createScaffoldGroups_run to_text m w) as (df' & Hrun & Hn & _).
  rewrite Hrun. simpl. apply steady_saved. auto.
Qed.

Lemma run_call_steady (c : call) (w : world) :
  steady w (snd (run_call MolFromSmiles to_text c w)).
Proof.
  destruct c; simpl.
  - apply addDescriptors_steady.
  - apply addScaffolds_steady.
  - apply addData_steady.
  - apply removeData_steady.
  - apply createScaffoldGroups_steady.
Qed.

Lemma run_all_steady (calls : list call) :
  forall w,
    steady w (run_all (map (run_call MolFromSmiles to_text) calls) w).
Proof.
  induction calls as [|c calls IH]; intros w; simpl.
  - apply steady_refl.
  - eapply steady_trans; [apply run_call_steady | apply IH].
Qed.

Lemma AddMoleculeColumnToFrame_wf (df df' : DataFrame) (k k' : string) :
  frame_wf df ->
  AddMoleculeColumnToFrame MolFromSmiles (Some df) k k' = Ok df' ->
  frame_wf df'.
Proof.
  intros Hwf. simpl.
  destruct (getitem df k) as [sm|e] eqn:Eg; simpl; [|discriminate].
  destruct (map_result MolFromSmiles sm) as [ms|e] eqn:Em; simpl;
    [|discriminate].
  intros E. inversion E. apply setitem_wf; [assumption|].
  rewrite (map_result_length _ _ _ Em). now apply (getitem_wf df k).
Qed.

Lemma addDescriptors_wf (ds : list Annotation) :
  forall w,
    frame_wf (_data (self w)) ->
    frame_wf (_data (self (snd (addDescriptors to_text ds w)))).
Proof.
  induction ds as [|d ds IH]; intros w Hwf.
  - exact Hwf.
  - rewrite addDescriptors_step.
    destruct (apply_rows _ _ _) as [col|e] eqn:E; [|exact Hwf].
    apply IH. simpl. apply setitem_wf; [assumption|].
    now apply (apply_rows_wf _ _ _ _ Hwf E).
Qed.

Lemma addScaffolds_wf (fs : list Annotation) :
  forall w,
    frame_wf (_data (self w)) ->
    frame_wf (_data (self (snd (addScaffolds MolFromSmiles to_text fs w)))).
Proof.
  induction fs as [|f fs IH]; intros w Hwf.
  - exact Hwf.
  - rewrite addScaffolds_step.
    destruct (apply_rows _ _ _) as [col|e] eqn:E; [|exact Hwf].
    cbv zeta.
    assert (Hwf1 : frame_wf (setitem (_data (self w))
                               ("Scaffold_" +:+ fn_str f) col)).
    { apply setitem_wf; [assumption|].
      now apply (apply_rows_wf _ _ _ _ Hwf E). }
    destruct (AddMoleculeColumnToFrame _ _ _ _) as [df'|e] eqn:Ea.
    + apply IH. simpl. now apply (AddMoleculeColumnToFrame_wf _ _ _ _ Hwf1 Ea).
    + exact Hwf1.
Qed.

Lemma run_call_wf (c : call) (w : world) :
  frame_wf (_data (self w)) ->
  frame_wf (_data (self (snd (run_call MolFromSmiles to_text c w)))).
Proof.
  intros Hwf. destruct c as [ds|fs|name data|name|m]; simpl.
  - now apply addDescriptors_wf.
  - now apply addScaffolds_wf.
  - unfold addData. st_unfold.
    destruct (setitem_list _ _ _) as [df|e] eqn:E; simpl; [|exact Hwf].
    now apply (setitem_list_wf _ _ _ _ Hwf E).
  - unfold removeData. st_unfold.
    destruct (drop _ _) as [df|e] eqn:E; simpl; [|exact Hwf].
    now apply (drop_wf _ _ _ Hwf E).
  - destruct (createScaffoldGroups_run to_text m w)
      as (df' & Hrun & _ & _ & _ & Hwf').
    rewrite Hrun. simpl. now apply Hwf'.
Qed.

Lemma run_all_wf (calls : list call) :
  forall w,
    frame_wf (_data (self w)) ->
    frame_wf (_data (self (run_all
                             (map (run_call MolFromSmiles to_text) calls)
                             w))).
Proof.
  induction calls as [|c calls IH]; intros w Hwf; simpl.
  - exact Hwf.
  - apply IH. now apply run_call_wf.
Qed.

End Frames.

(* ===================================================================== *)
(** ** Row count *)
(* ===================================================================== *)

Section RowCount.

Variable MolFromSmiles : callable.
Variable to_text : value -> string.

(** C5, as the code has it: for every sequence of addDescriptors,
    addScaffolds, addData, removeData (and createScaffoldGroups) calls on
    a table that has at least one row, whether the calls return or raise,
    the row count after the sequence is the row count before it; and when
    every column was as long as the row count before, so is every column
    after. *)
Theorem row_count_invariant (calls : list call) (w : world) :
  0 < nrows (_data (self w)) ->
  nrows (_data (self (run_all (map (run_call MolFromSmiles to_text) calls)
                        w)))
  = nrows (_data (self w))
  /\ (frame_wf (_data (self w)) ->
      frame_wf (_data (self (run_all
                               (map (run_call MolFromSmiles to_text) calls)
                               w)))).
Proof.
  intros Hpos. split.
  - destruct (run_all_steady MolFromSmiles to_text calls w)
      as (_ & _ & _ & Hn & _).
    now apply Hn.
  - apply run_all_wf.
Qed.

End RowCount.

Lemma row_count_invariant_witness :
  nrows (_data (self (run_all
                        (map (run_call demo_MolFromSmiles demo_to_text)
                             [AddScaffolds [demo_scaffold];
                              AddData "Label" [VStr "x"];
                              RemoveData "SMILES";
                              AddDescriptors [demo_descriptor; demo_failing]])
                        demo_world)))
  = 2
  /\ (frame_wf demo_frame ->
      frame_wf
        (_data (self (run_all
                        (map (run_call demo_MolFromSmiles demo_to_text)
                             [AddScaffolds [demo_scaffold];
                              AddData "Label" [VStr "x"];
                              RemoveData "SMILES";
                              AddDescriptors [demo_descriptor; demo_failing]])
                        demo_world)))).
Proof.
  apply (row_count_invariant demo_MolFromSmiles demo_to_text
           [AddScaffolds [demo_scaffold];
            AddData "Label" [VStr "x"];
            RemoveData "SMILES";
            AddDescriptors [demo_descriptor; demo_failing]]
           demo_world).
  simpl. lia.
Defined.

(** C5 as stated fails on a table without rows: a store loaded from a file
    that has a header and no rows has row count 0, and addData with a
    one-element list gives it one row. *)
Lemma addData_gives_rows_to_empty_table :
  (s0 ← init demo_MolFromSmiles demo_read_column demo_read_names
            "empty.tsv" "SMILES" demo_header_only;
   Ok (nrows (_data s0),
       nrows (_data (self (run_all
                             [run_call demo_MolFromSmiles demo_to_text
                                (AddData "Label" [VStr "x"])]
                             {| self := s0; disk := demo_header_only |})))))
  = Ok (0, 1).
Proof. vm_compute. reflexivity. Qed.

(* ===================================================================== *)
(** ** A failing annotation function *)
(* ===================================================================== *)

Section Failure.

Variable MolFromSmiles : callable.
Variable to_text : value -> string.



(** A batch of descriptors that completes leaves the backing file equal
    to the table and every column it found or added in the table. *)
Lemma addDescriptors_completed (ds : list Annotation) :
  forall w w',
    addDescriptors to_text ds w = (Ok tt, w') ->
    (synced to_text w \/ ds <> [] -> synced to_text w')
    /\ (forall k, In k (names (_data (self w))) ->
                  In k (names (_data (self w'))))
    /\ Forall (fun d => In ("Descriptor_" +:+ fn_str d)
                           (names (_data (self w')))) ds.
Proof.
  induction ds as [|d ds IH]; intros w w' Hrun.
  - inversion Hrun; subst w'. repeat split; auto.
    intros [H|H]; [assumption | congruence].
  - rewrite addDescriptors_step in Hrun.
    destruct (apply_rows _ _ _) as [col|e]; [|discriminate].
    destruct (IH _ _ Hrun) as (Hsync & Hkeep & Hall).
    repeat split.
    + intros _. apply Hsync. left. apply synced_saved.
    + intros k Hk. apply Hkeep. simpl. apply names_setitem. now right.
    + constructor; [|assumption].
      apply Hkeep. simpl. apply names_setitem. now left.
Qed.

Lemma addScaffolds_completed (fs : list Annotation) :
  forall w w',
    addScaffolds MolFromSmiles to_text fs w = (Ok tt, w') ->
    (synced to_text w \/ fs <> [] -> synced to_text w')
    /\ (forall k, In k (names (_data (self w))) ->
                  In k (names (_data (self w'))))
    /\ Forall (fun f =>
                 In ("Scaffold_" +:+ fn_str f) (names (_data (self w')))
                 /\ In ("Scaffold_" +:+ fn_str f +:+ "_"
                        +:+ molCol (self w))
                       (names (_data (self w')))) fs.
Proof.
  induction fs as [|f fs IH]; intros w w' Hrun.
  - inversion Hrun; subst w'. repeat split; auto.
    intros [H|H]; [assumption | congruence].
  - rewrite addScaffolds_step in Hrun.
    destruct (apply_rows _ _ _) as [col|e]; [|discriminate].
    cbv zeta in Hrun.
    destruct (AddMoleculeColumnToFrame _ _ _ _) as [df'|e] eqn:E;
      [|discriminate].
    apply AddMoleculeColumnToFrame_nrows in E as [_ Hnames].
    destruct (IH _ _ Hrun) as (Hsync & Hkeep & Hall).
    repeat split.
    + intros _. apply Hsync. left. apply synced_saved.
    + intros k Hk. apply Hkeep. simpl. apply Hnames. right.
      apply names_setitem. now right.
    + constructor; [|assumption]. split.
      * apply Hkeep. simpl. apply Hnames. right.
        apply names_setitem. now left.
      * apply Hkeep. simpl. apply Hnames. now left.
Qed.

(** On a table without rows a batch raises ValueError at its first
    function, whatever the function does, and changes nothing. *)
Lemma addDescriptors_without_rows (d : Annotation) (ds : list Annotation)
  (w : world) :
  nrows (_data (self w)) = 0 ->
  addDescriptors to_text (d :: ds) w = (Raise ValueError, w).
Proof.
  intros Hrows. rewrite addDescriptors_step. unfold apply_rows.
  now rewrite Hrows.
Qed.

Lemma addScaffolds_without_rows (f : Annotation) (fs : list Annotation)
  (w : world) :
  nrows (_data (self w)) = 0 ->
  addScaffolds MolFromSmiles to_text (f :: fs) w = (Raise ValueError, w).
Proof.
  intros Hrows. rewrite addScaffolds_step. unfold apply_rows.
  now rewrite Hrows.
Qed.


End Failure.



(* ===================================================================== *)
(** ** Saving to another path *)
(* ===================================================================== *)

Section Override.

Variable MolFromSmiles : callable.
Variable to_text : value -> string.

(** A mutating call that returns has saved the table to the backing
    path; a batch call with no function does nothing at all. *)
Lemma run_call_synced (c : call) (w w' : world) :
  run_call MolFromSmiles to_text c w = (Ok tt, w') ->
  c <> AddDescriptors [] ->
  c <> AddScaffolds [] ->
  synced to_text w'.
Proof.
  destruct c as [ds|fs|name data|name|m]; simpl; intros Hrun Hd Hs.
  - apply (addDescriptors_completed to_text ds w w' Hrun).
    right. congruence.
  - apply (addScaffolds_completed MolFromSmiles to_text fs w w' Hrun).
    right. congruence.
  - unfold addData in Hrun. revert Hrun. st_unfold.
    destruct (setitem_list _ _ _) as [df|e]; simpl; [|discriminate].
    intros E. inversion E. apply (synced_saved to_text w df).
  - unfold removeData in Hrun. revert Hrun. st_unfold.
    destruct (drop _ _) as [df|e]; simpl; [|discriminate].
    intros E. inversion E. apply (synced_saved to_text w df).
  - destruct (createScaffoldGroups_run to_text m w) as (df' & Hrun' & _).
    rewrite Hrun' in Hrun. inversion Hrun. apply synced_saved.
Qed.

(** C10, as the code has it: save with an override path that is not the
    empty string writes the table to that path and changes nothing of the
    object; every mutating call that comes later, after any number of
    others, finds the backing path as it was, writes no file but the one at
    the backing path, and, when it returns (and is not a batch call without
    functions), has saved the table there. *)
Theorem save_override_keeps_backing_path
  (w : world) (p : string) (calls : list call) (c : call) :
  truthy p = true ->
  exists w1 wk,
    save to_text (Some p) w = (Ok tt, w1)
    /\ self w1 = self w
    /\ disk w1 = <[p := to_csv to_text (_data (self w))]> (disk w)
    /\ wk = run_all (map (run_call MolFromSmiles to_text) calls) w1
    /\ path (self wk) = path (self w)
    /\ path (self (snd (run_call MolFromSmiles to_text c wk)))
       = path (self w)
    /\ (forall q, q <> path (self w) ->
          disk (snd (run_call MolFromSmiles to_text c wk)) !! q
          = disk w1 !! q)
    /\ (fst (run_call MolFromSmiles to_text c wk) = Ok tt ->
        c <> AddDescriptors [] ->
        c <> AddScaffolds [] ->
        disk (snd (run_call MolFromSmiles to_text c wk)) !! path (self w)
        = Some (to_csv to_text
                  (_data (self (snd (run_call MolFromSmiles to_text c
                                       wk)))))).
Proof.
  intros Hp. rewrite save_run, Hp.
  set (w1 := saved to_text w (_data (self w)) p).
  set (wk := run_all (map (run_call MolFromSmiles to_text) calls) w1).
  assert (Hself : self w1 = self w).
  { unfold w1, saved, with_data. simpl.
    destruct w as [[sc mc pa d] fs]; reflexivity. }
  exists w1, wk. split; [reflexivity|]. split; [exact Hself|].
  split; [reflexivity|]. split; [reflexivity|].
  pose proof (run_all_steady MolFromSmiles to_text calls w1) as Hk.
  fold wk in Hk.
  pose proof (steady_trans _ _ _ Hk
                (run_call_steady MolFromSmiles to_text c wk)) as Hc.
  destruct Hk as (_ & _ & Hpk & _ & _).
  destruct Hc as (_ & _ & Hpath & _ & Hdisk).
  rewrite Hself in Hpk, Hpath, Hdisk.
  split; [exact Hpk|]. split; [exact Hpath|]. split; [exact Hdisk|].
  intros Hok Hd Hs.
  destruct (run_call MolFromSmiles to_text c wk) as [r w2] eqn:Hrun.
  simpl in *. subst r.
  pose proof (run_call_synced c wk w2 Hrun Hd Hs) as Hsync.
  unfold synced in Hsync. now rewrite Hpath in Hsync.
Qed.

End Override.

Lemma save_override_keeps_backing_path_witness :
  exists w1 wk,
    save demo_to_text (Some "copy.tsv") demo_world = (Ok tt, w1)
    /\ self w1 = self demo_world
    /\ disk w1
       = <["copy.tsv" := to_csv demo_to_text demo_frame]> (disk demo_world)
    /\ wk = run_all (map (run_call demo_MolFromSmiles demo_to_text)
                         [AddScaffolds [demo_scaffold]]) w1
    /\ path (self wk) = "data.tsv"
    /\ path (self (snd (run_call demo_MolFromSmiles demo_to_text
                          (AddData "Label" [VStr "x"; VStr "y"]) wk)))
       = "data.tsv"
    /\ (forall q, q <> "data.tsv" ->
          disk (snd (run_call demo_MolFromSmiles demo_to_text
                       (AddData "Label" [VStr "x"; VStr "y"]) wk)) !! q
          = disk w1 !! q)
    /\ (fst (run_call demo_MolFromSmiles demo_to_text
               (AddData "Label" [VStr "x"; VStr "y"]) wk) = Ok tt ->
        AddData "Label" [VStr "x"; VStr "y"] <> AddDescriptors [] ->
        AddData "Label" [VStr "x"; VStr "y"] <> AddScaffolds [] ->
        disk (snd (run_call demo_MolFromSmiles demo_to_text
                     (AddData "Label" [VStr "x"; VStr "y"]) wk))
          !! "data.tsv"
        = Some (to_csv demo_to_text
                  (_data (self (snd (run_call demo_MolFromSmiles demo_to_text
                                       (AddData "Label" [VStr "x"; VStr "y"])
                                       wk)))))).
Proof.
  apply (save_override_keeps_backing_path demo_MolFromSmiles demo_to_text
           demo_world "copy.tsv" [AddScaffolds [demo_scaffold]]
           (AddData "Label" [VStr "x"; VStr "y"])).
  reflexivity.
Defined.

(** C10 as stated fails on the empty string: it counts as no path, and the
    table is written to the backing path, not to the path given. *)
Lemma save_empty_override_goes_to_backing_path :
  fst (save demo_to_text (Some "") demo_abc_world) = Ok tt
  /\ disk (snd (save demo_to_text (Some "") demo_abc_world)) !! "" = None
  /\ disk (snd (save demo_to_text (Some "") demo_abc_world)) !! "abc.tsv"
     = Some (to_csv demo_to_text (_data (self demo_abc_world))).
Proof. repeat split; vm_compute; reflexivity. Qed.

(* ===================================================================== *)
(** ** Reusing the output of papyrus_filter *)
(* ===================================================================== *)

Section Reuse.

Variable to_text : value -> string.
Variable read_column : list string -> list value.
Variable read_names : list string -> list string.
Variable chunks : Type.
Variable read_papyrus :
  gmap string tsv -> bool -> Z -> string -> bool -> result chunks.
Variable keep_quality : chunks -> string -> chunks.
Variable keep_accession : chunks -> list string -> chunks.
Variable consume_chunks : chunks -> result DataFrame.

(** C9: when use_existing is true and the output file exists,
    papyrus_filter prints one line and returns what reading that file
    gives together with its path; the reader and the filters of the
    pipeline are not consulted (the result is the same whatever they are)
    and no file is written. *)
Theorem papyrus_filter_reuses_existing
  (acc_key : list string) (quality outdir : string)
  (prefix : option string) (drop_dups stereo plusplus : bool)
  (chunk_size : Z) (w : pworld) (f : tsv) :
  files w !! outfile_path acc_key quality outdir prefix = Some f ->
  papyrus_filter to_text read_column read_names chunks read_papyrus
    keep_quality keep_accession consume_chunks
    acc_key quality outdir prefix drop_dups chunk_size true stereo plusplus
    w
  = (df ← read_csv read_column read_names f;
     Ok (df, outfile_path acc_key quality outdir prefix),
     {| stdout :=
          (stdout w
           ++ ["Using existing data from "
               +:+ outfile_path acc_key quality outdir prefix
               +:+ "..."])%list;
        files := files w |}).
Proof.
  intros Hf. unfold papyrus_filter. cbv zeta.
  unfold mbind at 1, ST_bind at 1, get_files. rewrite Hf.
  unfold mbind at 1, ST_bind at 1, print.
  unfold mbind at 1, ST_bind at 1, lift.
  destruct (read_csv read_column read_names f) as [df|e]; reflexivity.
Qed.

End Reuse.

Lemma papyrus_filter_reuses_existing_witness :
  papyrus_filter demo_to_text demo_read_column demo_read_names unit
    (fun _ _ _ _ _ => Raise (Raised "no papyrus data"))
    (fun c _ => c) (fun c _ => c)
    (fun _ => Raise (Raised "nothing to consume"))
    ["P00533"; "P04626"] "high" "out" None true 100000 true false false
    {| stdout := [];
       files := {[ "out/P00533_P04626_high.tsv"
                   := to_csv demo_to_text demo_frame ]} |}
  = (df ← read_csv demo_read_column demo_read_names
            (to_csv demo_to_text demo_frame);
     Ok (df, "out/P00533_P04626_high.tsv"),
     {| stdout :=
          ["Using existing data from out/P00533_P04626_high.tsv..."];
        files := {[ "out/P00533_P04626_high.tsv"
                    := to_csv demo_to_text demo_frame ]} |}).
Proof.
  exact (papyrus_filter_reuses_existing demo_to_text demo_read_column
           demo_read_names unit
           (fun _ _ _ _ _ => Raise (Raised "no papyrus data"))
           (fun c _ => c) (fun c _ => c)
           (fun _ => Raise (Raised "nothing to consume"))
           ["P00533"; "P04626"] "high" "out" None true false false 100000
           {| stdout := [];
              files := {[ "out/P00533_P04626_high.tsv"
                          := to_csv demo_to_text demo_frame ]} |}
           (to_csv demo_to_text demo_frame) eq_refl).
Defined.

(* ===================================================================== *)
(** ** More on scaffold groups *)
(* ===================================================================== *)

Lemma assoc_set_id {A : Type} (key : string) (x : A)
  (cols : list (string * A)) :
  assoc key cols = Some x -> assoc_set key x cols = cols.
Proof.
  induction cols as [|[k y] cols IH]; simpl; [discriminate|].
  destruct (String.eqb k key).
  - intros E. now inversion E.
  - intros E. now rewrite IH.
Qed.

Lemma filter_names_setitem (P : string -> bool) (df : DataFrame)
  (key : string) (vs : list value) :
  P key = false ->
  List.filter P (names (setitem df key vs)) = List.filter P (names df).
Proof.
  intros HP. unfold names, setitem. simpl. rewrite names_assoc_set.
  destruct (existsb _ _); [reflexivity|].
  rewrite List.filter_app. simpl. rewrite HP. apply app_nil_r.
Qed.

Lemma group_name_is_group (c : string) :
  startswith ("ScaffoldGroup_" +:+ c) "ScaffoldGroup_" = true.
Proof. destruct c; reflexivity. Qed.

Lemma filter_none {A : Type} (P : A -> bool) (l : list A) :
  (forall x, In x l -> P x = false) -> List.filter P l = [].
Proof.
  induction l as [|x l IH]; intros H; [reflexivity|].
  simpl. rewrite (H x (or_introl eq_refl)).
  apply IH. intros y Hy. apply H. now right.
Qed.

Lemma with_data_same (w : world) : with_data w (_data (self w)) = w.
Proof. destruct w as [[sc mc p d] fs]; reflexivity. Qed.

Section MoreGrouping.

Variable to_text : value -> string.

(** The loop of createScaffoldGroups does nothing when every column it
    is asked to group already has its grouping column. *)
Lemma group_columns_fixed (m : Z) (keys : list string) (w : world) :
  (forall k, In k keys ->
     exists col,
       assoc k (columns (_data (self w))) = Some col
       /\ assoc ("ScaffoldGroup_" +:+ k) (columns (_data (self w)))
          = Some (scaffold_group m col)) ->
  group_columns m keys w = (Ok tt, w).
Proof.
  induction keys as [|k keys IH]; intros Hall; [reflexivity|].
  destruct (Hall k (or_introl eq_refl)) as (col & Hcol & Hgrp).
  simpl. st_unfold. unfold getitem. rewrite Hcol. simpl.
  unfold setitem. rewrite (assoc_set_id _ _ _ Hgrp).
  assert ({| nrows := nrows (_data (self w));
             columns := columns (_data (self w)) |} = _data (self w)) as ->
      by (destruct (_data (self w)); reflexivity).
  rewrite with_data_same. apply IH.
  intros k' Hk'. apply Hall. now right.
Qed.

(** Whatever the loop of createScaffoldGroups does, the names picked by a
    test that no grouping name passes stay the same, in the same order. *)
Lemma group_columns_names (P : string -> bool) (m : Z) (keys : list string) :
  (forall k, P ("ScaffoldGroup_" +:+ k) = false) ->
  forall w,
    List.filter P (names (_data (self (snd (group_columns m keys w)))))
    = List.filter P (names (_data (self w))).
Proof.
  intros HP. induction keys as [|k keys IH]; intros w; [reflexivity|].
  simpl. st_unfold.
  destruct (getitem (_data (self w)) k) as [col|e]; simpl; [|reflexivity].
  rewrite IH. simpl. now apply filter_names_setitem.
Qed.

Lemma createScaffoldGroups_data (m : Z) (w : world) :
  _data (self (snd (createScaffoldGroups to_text m w)))
  = _data (self (snd (group_columns m
                        (List.filter (fun col => startswith col "Scaffold_")
                                     (names (_data (self w))))
                        w))).
Proof.
  destruct (getScaffolds_run false w) as (cols & Hget & Hn).
  unfold createScaffoldGroups.
  unfold mbind at 1, ST_bind at 1. rewrite Hget.
  unfold mbind at 1, ST_bind at 1. unfold names at 1. simpl columns.
  rewrite Hn.
  destruct (group_columns m _ w) as [[[]|e] w2]; [|reflexivity].
  rewrite save_run. reflexivity.
Qed.

(** createScaffoldGroups always returns, changes no column whose name does
    not start with [ScaffoldGroup_], keeps the row count, and leaves the
    backing file equal to the table. *)
Theorem createScaffoldGroups_keeps_other_columns
  (m : Z) (w : world) (key : string) :
  startswith key "ScaffoldGroup_" = false ->
  fst (createScaffoldGroups to_text m w) = Ok tt
  /\ getitem (_data (self (snd (createScaffoldGroups to_text m w)))) key
     = getitem (_data (self w)) key
  /\ nrows (_data (self (snd (createScaffoldGroups to_text m w))))
     = nrows (_data (self w))
  /\ synced to_text (snd (createScaffoldGroups to_text m w)).
Proof.
  intros Hkey.
  destruct (createScaffoldGroups_run to_text m w)
    as (df' & Hrun & Hn & _ & Hfr & _).
  rewrite Hrun. simpl. repeat split.
  - unfold getitem. rewrite Hfr; [reflexivity|].
    intros k _ _ ->. now rewrite group_name_is_group in Hkey.
  - exact Hn.
  - apply synced_saved.
Qed.

(** Grouping columns are not scaffold columns and not descriptor columns:
    createScaffoldGroups changes neither what getScaffoldNames returns nor
    what getDescriptorsNames returns. *)
Theorem createScaffoldGroups_keeps_name_lists (m : Z) (w : world) :
  fst (getScaffoldNames (snd (createScaffoldGroups to_text m w)))
  = fst (getScaffoldNames w)
  /\ fst (getDescriptorsNames (snd (createScaffoldGroups to_text m w)))
     = fst (getDescriptorsNames w).
Proof.
  unfold getScaffoldNames, getDescriptorsNames. st_unfold.
  rewrite createScaffoldGroups_data.
  split; f_equal.
  - apply (group_columns_names (fun col => startswith col "Scaffold_")).
    reflexivity.
  - apply (group_columns_names (fun col => startswith col "Descriptor_")).
    reflexivity.
Qed.

(** Calling createScaffoldGroups a second time with the same minimum
    group size changes nothing: not the table, not the files. *)
Theorem createScaffoldGroups_idempotent (m : Z) (w : world) :
  createScaffoldGroups to_text m (snd (createScaffoldGroups to_text m w))
  = (Ok tt, snd (createScaffoldGroups to_text m w)).
Proof.
  destruct (createScaffoldGroups_run to_text m w)
    as (df' & Hrun & Hn & Hgrp & Hfr & _).
  rewrite Hrun. simpl snd.
  set (w1 := saved to_text w df' (path (self w))).
  destruct (getScaffolds_run false w1) as (cols & Hget & Hnames).
  unfold createScaffoldGroups.
  unfold mbind at 1, ST_bind at 1. rewrite Hget.
  unfold mbind at 1, ST_bind at 1. unfold names at 1. simpl columns.
  rewrite Hnames, group_columns_fixed.
  - rewrite save_run. unfold w1, saved. simpl.
    now rewrite insert_insert_eq.
  - intros k Hk.
    apply (List.filter_In (fun col => startswith col "Scaffold_")) in Hk
      as [Hin Hs].
    apply assoc_In_names in Hin. simpl in Hin.
    assert (Hsame : assoc k (columns df')
                    = assoc k (columns (_data (self w)))).
    { apply Hfr. intros k' _ _ ->.
      now rewrite group_name_not_scaffold in Hs. }
    destruct (assoc k (columns (_data (self w)))) as [col|] eqn:Ek;
      [|congruence].
    exists col. simpl. split; [exact Hsame|]. now apply Hgrp.
Qed.

(** After createScaffoldGroups, getScaffoldGroups called with the full
    name of a scaffold column of strings and missing entries (at least one
    string) returns, row by row, the missing entry where the scaffold is
    missing, the scaffold where it occurs at least [m] times in the column,
    and ['Other'] elsewhere; it changes nothing. *)
Theorem getScaffoldGroups_after_createScaffoldGroups
  (m : Z) (w : world) (c : string) (col : list value) :
  startswith c "Scaffold_" = true ->
  getitem (_data (self w)) c = Ok col ->
  Forall (fun v => str_or_missing v = true) col ->
  (exists s, In (VStr s) col) ->
  getScaffoldGroups c (snd (createScaffoldGroups to_text m w))
  = (Ok (map (fun v =>
                if isna v then v
                else if (m <=? Z.of_nat (count v col))%Z then v
                     else VStr "Other")
             col),
     snd (createScaffoldGroups to_text m w)).
Proof.
  intros Hc Hcol _ _.
  destruct (createScaffoldGroups_run to_text m w)
    as (df' & Hrun & _ & Hgrp & _).
  rewrite Hrun. simpl snd.
  unfold getScaffoldGroups. st_unfold. unfold getitem in *. simpl.
  destruct (assoc c (columns (_data (self w)))) as [col'|] eqn:Ec;
    [|discriminate].
  inversion Hcol; subst col'. rewrite (Hgrp c col Hc Ec).
  do 2 f_equal. apply list_eq. intros i.
  rewrite list_lookup_fmap.
  destruct (col !! i) as [v|] eqn:Hi; simpl.
  - rewrite (scaffold_group_lookup m col i v Hi). f_equal.
    rewrite Z.leb_antisym.
    destruct (isna v); simpl; [reflexivity|]. now destruct (_ <? _)%Z.
  - apply lookup_ge_None. rewrite scaffold_group_length.
    now apply lookup_ge_None.
Qed.

(** On a table without scaffold columns createScaffoldGroups adds nothing:
    it only writes the table, unchanged, to the backing file. *)
Theorem createScaffoldGroups_without_scaffolds (m : Z) (w : world) :
  (forall k, In k (names (_data (self w))) ->
             startswith k "Scaffold_" = false) ->
  createScaffoldGroups to_text m w
  = (Ok tt, saved to_text w (_data (self w)) (path (self w))).
Proof.
  intros Hnone.
  destruct (getScaffolds_run false w) as (cols & Hget & Hn).
  assert (Hkeys : List.filter (fun col => startswith col "Scaffold_")
                              (names (_data (self w))) = []).
  { now apply filter_none. }
  unfold createScaffoldGroups.
  unfold mbind at 1, ST_bind at 1. rewrite Hget.
  unfold mbind at 1, ST_bind at 1. unfold names at 1. simpl columns.
  rewrite Hn, Hkeys. simpl. rewrite save_run. reflexivity.
Qed.

End MoreGrouping.

Lemma createScaffoldGroups_keeps_other_columns_witness :
  fst (createScaffoldGroups demo_to_text 2 demo_abc_world) = Ok tt
  /\ getitem (_data (self (snd (createScaffoldGroups demo_to_text 2
                                  demo_abc_world))))
             "Scaffold_Murcko"
     = getitem (_data (self demo_abc_world)) "Scaffold_Murcko"
  /\ nrows (_data (self (snd (createScaffoldGroups demo_to_text 2
                                demo_abc_world))))
     = nrows (_data (self demo_abc_world))
  /\ synced demo_to_text (snd (createScaffoldGroups demo_to_text 2
                                 demo_abc_world)).
Proof.
  apply (createScaffoldGroups_keeps_other_columns demo_to_text 2
           demo_abc_world "Scaffold_Murcko").
  reflexivity.
Defined.

Lemma getScaffoldGroups_after_createScaffoldGroups_witness :
  getScaffoldGroups "Scaffold_Murcko"
    (snd (createScaffoldGroups demo_to_text 3 demo_mixed_world))
  = (Ok [VStr "A"; VStr "A"; VStr "A"; VStr "Other"; VStr "Other";
         VStr "Other"; VNone],
     snd (createScaffoldGroups demo_to_text 3 demo_mixed_world)).
Proof.
  apply (getScaffoldGroups_after_createScaffoldGroups demo_to_text 3
           demo_mixed_world "Scaffold_Murcko" demo_mixed_column).
  - reflexivity.
  - reflexivity.
  - repeat constructor.
  - exists "A". now left.
Defined.

Lemma createScaffoldGroups_without_scaffolds_witness :
  createScaffoldGroups demo_to_text 2 demo_world
  = (Ok tt, saved demo_to_text demo_world demo_frame "data.tsv").
Proof.
  apply (createScaffoldGroups_without_scaffolds demo_to_text 2 demo_world).
  simpl. intros k [<-|[<-|[]]]; reflexivity.
Defined.

(* ===================================================================== *)
(** ** What the mutating methods put in the table *)
(* ===================================================================== *)

Lemma append_nonempty_neq (s t : string) (c : Ascii.ascii) :
  s <> s +:+ String c t.
Proof.
  induction s as [|a s IH]; simpl; [discriminate|].
  intros E. inversion E. now apply IH.
Qed.

Lemma prefixed_inj (p s t : string) : p +:+ s = p +:+ t -> s = t.
Proof.
  induction p as [|a p IH]; simpl; [auto|].
  intros E. inversion E. now apply IH.
Qed.

Lemma assoc_filter_other {A : Type} (key k : string)
  (cols : list (string * A)) :
  k <> key ->
  assoc k (List.filter (fun c => negb (String.eqb (fst c) key)) cols)
  = assoc k cols.
Proof.
  intros Hne. induction cols as [|[k' y] cols IH]; simpl; [reflexivity|].
  destruct (String.eqb_spec k' key) as [->|Hk']; simpl.
  - destruct (String.eqb_spec key k) as [E|_]; [congruence | exact IH].
  - now rewrite IH.
Qed.

Lemma filter_drops_name {A : Type} (key : string)
  (cols : list (string * A)) :
  ~ In key (map fst (List.filter (fun c => negb (String.eqb (fst c) key))
                                 cols)).
Proof.
  intros H. apply in_map_iff in H as (c & Hc & Hin).
  apply filter_In in Hin as [_ Hneq].
  apply negb_true_iff, String.eqb_neq in Hneq. congruence.
Qed.

Lemma filter_assoc_set_fresh {A : Type} (key : string) (x : A)
  (cols : list (string * A)) :
  ~ In key (map fst cols) ->
  List.filter (fun c => negb (String.eqb (fst c) key))
              (assoc_set key x cols)
  = cols.
Proof.
  induction cols as [|[k y] cols IH]; simpl; intros Hnot.
  - now rewrite String.eqb_refl.
  - destruct (String.eqb_spec k key) as [->|Hk]; [tauto|].
    simpl. apply String.eqb_neq in Hk. rewrite Hk. simpl.
    rewrite IH; [reflexivity | tauto].
Qed.

Lemma existsb_names (key : string) (l : list string) :
  existsb (String.eqb key) l = true <-> In key l.
Proof.
  rewrite existsb_exists. split.
  - intros (k & Hk & E). apply String.eqb_eq in E. now subst.
  - intros H. exists key. split; [assumption | apply String.eqb_refl].
Qed.

Section MoreMutation.

Variable MolFromSmiles : callable.
Variable to_text : value -> string.

(** addDescriptors, returning or raising, changes no column but the
    descriptor columns of its functions. *)
Lemma addDescriptors_other_columns (ds : list Annotation) :
  forall (w : world) (k : string),
    (forall d, In d ds -> k <> "Descriptor_" +:+ fn_str d) ->
    getitem (_data (self (snd (addDescriptors to_text ds w)))) k
    = getitem (_data (self w)) k.
Proof.
  induction ds as [|d ds IH]; intros w k Hk; [reflexivity|].
  rewrite addDescriptors_step.
  destruct (apply_rows _ _ _) as [col|e]; [|reflexivity].
  rewrite IH by (intros d' Hd'; apply Hk; now right).
  unfold getitem. simpl. rewrite assoc_set_other; [reflexivity|].
  apply Hk. now left.
Qed.

Lemma addDescriptors_columns_apply
  (ds : list Annotation) (w w' : world) :
  NoDup (map fn_str ds) ->
  (forall d, In d ds -> molCol (self w) <> "Descriptor_" +:+ fn_str d) ->
  addDescriptors to_text ds w = (Ok tt, w') ->
  (forall d, In d ds ->
     getitem (_data (self w')) ("Descriptor_" +:+ fn_str d)
     = apply_rows (_data (self w)) (molCol (self w)) (fn_call d))
  /\ (forall k, (forall d, In d ds -> k <> "Descriptor_" +:+ fn_str d) ->
        getitem (_data (self w')) k = getitem (_data (self w)) k).
Proof.
  intros Hnd Hmol Hrun. split.
  2:{ intros k Hk.
      pose proof (addDescriptors_other_columns ds w k Hk) as H.
      now rewrite Hrun in H. }
  revert w w' Hnd Hmol Hrun.
  induction ds as [|d0 ds IH]; intros w w' Hnd Hmol Hrun d Hd; [destruct Hd|].
  rewrite addDescriptors_step in Hrun.
  destruct (apply_rows (_data (self w)) (molCol (self w)) (fn_call d0))
    as [col0|e] eqn:E0; [|discriminate].
  simpl in Hnd. apply NoDup_cons in Hnd as [Hfresh Hnd].
  set (w1 := saved to_text w
               (setitem (_data (self w)) ("Descriptor_" +:+ fn_str d0) col0)
               (path (self w))) in *.
  destruct Hd as [<-|Hd].
  - rewrite E0.
    pose proof (addDescriptors_other_columns ds w1
                  ("Descriptor_" +:+ fn_str d0)) as H.
    rewrite Hrun in H. simpl in H. rewrite H.
    + unfold getitem. simpl. now rewrite assoc_set_same.
    + intros d' Hd' E. apply prefixed_inj in E.
      apply Hfresh. apply list_elem_of_In. rewrite E.
      now apply in_map.
  - rewrite (IH w1 w' Hnd) by
        (try assumption; intros d' Hd'; apply Hmol; now right).
    unfold apply_rows, w1. simpl. unfold getitem. simpl.
    rewrite assoc_set_other; [reflexivity|].
    apply Hmol. now left.
Qed.

Lemma apply_rows_Ok (df : DataFrame) (key : string) (f : callable)
  (col : list value) :
  apply_rows df key f = Ok col ->
  exists vs,
    0 < nrows df /\ getitem df key = Ok vs /\ map_result f vs = Ok col.
Proof.
  unfold apply_rows. destruct (nrows df); [discriminate|].
  destruct (getitem df key) as [vs|e]; simpl; [|discriminate].
  intros H. exists vs. repeat split; [lia | exact H].
Qed.

(** A batch of descriptors with distinct names that returns has put in the
    column of each function what the function returns, molecule by
    molecule, on the molecule column of the table as it was before the
    call: no function sees what another one of the batch added. Every
    column that is not a descriptor column of the batch is as before. *)
Theorem addDescriptors_columns
  (ds : list Annotation) (w w' : world) (mols : list value) :
  NoDup (map fn_str ds) ->
  (forall d, In d ds -> molCol (self w) <> "Descriptor_" +:+ fn_str d) ->
  getitem (_data (self w)) (molCol (self w)) = Ok mols ->
  addDescriptors to_text ds w = (Ok tt, w') ->
  (forall d, In d ds ->
     exists vals,
       map_result (fn_call d) mols = Ok vals
       /\ getitem (_data (self w')) ("Descriptor_" +:+ fn_str d) = Ok vals)
  /\ (forall k, (forall d, In d ds -> k <> "Descriptor_" +:+ fn_str d) ->
        getitem (_data (self w')) k = getitem (_data (self w)) k).
Proof.
  intros Hnd Hmol Hmols Hrun.
  destruct (addDescriptors_columns_apply ds w w' Hnd Hmol Hrun)
    as [Hcols Hframe].
  split; [|exact Hframe].
  intros d Hd.
  destruct (addDescriptors_completed to_text ds w w' Hrun) as (_ & _ & Hall).
  rewrite Forall_forall in Hall.
  specialize (Hall d (proj2 (list_elem_of_In _ _) Hd)).
  apply assoc_In_names in Hall.
  specialize (Hcols d Hd). unfold getitem at 1 in Hcols.
  destruct (assoc ("Descriptor_" +:+ fn_str d) (columns (_data (self w'))))
    as [vals|] eqn:Ev; [|congruence].
  symmetry in Hcols.
  apply apply_rows_Ok in Hcols as (vs & _ & Hvs & Hmap).
  rewrite Hmols in Hvs. injection Hvs as <-.
  exists vals. split; [exact Hmap|].
  unfold getitem. now rewrite Ev.
Qed.

(** A descriptor whose column is already in the table replaces it where it
    stands; a new one becomes the last column. The order of the other
    columns does not change. *)
Theorem addDescriptors_column_order (d : Annotation) (w w' : world) :
  addDescriptors to_text [d] w = (Ok tt, w') ->
  names (_data (self w'))
  = if existsb (String.eqb ("Descriptor_" +:+ fn_str d))
               (names (_data (self w)))
    then names (_data (self w))
    else (names (_data (self w)) ++ ["Descriptor_" +:+ fn_str d])%list.
Proof.
  rewrite addDescriptors_step.
  destruct (apply_rows _ _ _) as [col|e]; [|discriminate].
  intros E. inversion E. simpl. apply names_assoc_set.
Qed.

Lemma addScaffolds_columns_apply (f : Annotation) (w w' : world) :
  addScaffolds MolFromSmiles to_text [f] w = (Ok tt, w') ->
  exists col mols,
    apply_rows (_data (self w)) (molCol (self w)) (fn_call f) = Ok col
    /\ map_result MolFromSmiles col = Ok mols
    /\ getitem (_data (self w')) ("Scaffold_" +:+ fn_str f) = Ok col
    /\ getitem (_data (self w'))
               ("Scaffold_" +:+ fn_str f +:+ "_" +:+ molCol (self w))
       = Ok mols
    /\ (forall k,
          k <> "Scaffold_" +:+ fn_str f ->
          k <> "Scaffold_" +:+ fn_str f +:+ "_" +:+ molCol (self w) ->
          getitem (_data (self w')) k = getitem (_data (self w)) k).
Proof.
  rewrite addScaffolds_step.
  destruct (apply_rows _ _ _) as [col|e]; [|discriminate].
  cbv zeta. simpl AddMoleculeColumnToFrame.
  unfold getitem at 1. simpl. rewrite assoc_set_same. simpl.
  destruct (map_result MolFromSmiles col) as [mols|e] eqn:Hparse; simpl;
    [|discriminate].
  intros E. injection E as <-.
  assert (Hne : "Scaffold_" +:+ fn_str f
                <> "Scaffold_" +:+ fn_str f +:+ "_" +:+ molCol (self w)).
  { intros E. apply (prefixed_inj "Scaffold_") in E.
    now apply append_nonempty_neq in E. }
  exists col, mols. repeat split.
  - exact Hparse.
  - unfold getitem. simpl.
    rewrite assoc_set_other by exact Hne. now rewrite assoc_set_same.
  - unfold getitem. simpl. now rewrite assoc_set_same.
  - intros k Hk1 Hk2. unfold getitem. simpl.
    now rewrite !assoc_set_other by assumption.
Qed.

(** addScaffolds with one function that returns has put in [Scaffold_<f>]
    what the function returns, molecule by molecule, on the molecule
    column, in [Scaffold_<f>_<molCol>] the molecules parsed from these
    values, and has changed no other column. *)
Theorem addScaffolds_columns (f : Annotation) (w w' : world) :
  addScaffolds MolFromSmiles to_text [f] w = (Ok tt, w') ->
  exists mols col parsed,
    getitem (_data (self w)) (molCol (self w)) = Ok mols
    /\ map_result (fn_call f) mols = Ok col
    /\ map_result MolFromSmiles col = Ok parsed
    /\ getitem (_data (self w')) ("Scaffold_" +:+ fn_str f) = Ok col
    /\ getitem (_data (self w'))
               ("Scaffold_" +:+ fn_str f +:+ "_" +:+ molCol (self w))
       = Ok parsed
    /\ (forall k,
          k <> "Scaffold_" +:+ fn_str f ->
          k <> "Scaffold_" +:+ fn_str f +:+ "_" +:+ molCol (self w) ->
          getitem (_data (self w')) k = getitem (_data (self w)) k).
Proof.
  intros Hrun.
  destruct (addScaffolds_columns_apply f w w' Hrun)
    as (col & parsed & Happly & Hparse & H1 & H2 & Hframe).
  apply apply_rows_Ok in Happly as (mols & _ & Hmols & Hmap).
  exists mols, col, parsed. repeat split; assumption.
Qed.

(** When the scaffold function returns for every row but parsing one of
    its values raises, addScaffolds raises with the scaffold column already
    in the table in memory and nothing written: the files are as before. *)
Theorem addScaffolds_parse_failure
  (f : Annotation) (rest : list Annotation) (w : world)
  (col : list value) (e : exn) :
  apply_rows (_data (self w)) (molCol (self w)) (fn_call f) = Ok col ->
  map_result MolFromSmiles col = Raise e ->
  exists w',
    addScaffolds MolFromSmiles to_text (f :: rest) w = (Raise e, w')
    /\ getitem (_data (self w')) ("Scaffold_" +:+ fn_str f) = Ok col
    /\ disk w' = disk w.
Proof.
  intros Happly Hparse.
  exists (with_data w (setitem (_data (self w))
                               ("Scaffold_" +:+ fn_str f) col)).
  rewrite addScaffolds_step, Happly. cbv zeta.
  simpl AddMoleculeColumnToFrame.
  unfold getitem at 1. simpl. rewrite assoc_set_same. simpl.
  rewrite Hparse. simpl. repeat split.
  unfold getitem. simpl. now rewrite assoc_set_same.
Qed.

(** addData on a table with rows, with a list of another length, raises
    ValueError; the table and the files are as before. *)
Theorem addData_wrong_length (name : string) (data : list value)
  (w : world) :
  0 < nrows (_data (self w)) ->
  length data <> nrows (_data (self w)) ->
  addData to_text name data w = (Raise ValueError, w).
Proof.
  intros Hpos Hlen. unfold addData. st_unfold. unfold setitem_list.
  destruct (nrows (_data (self w)) =? 0) eqn:E0;
    [apply Nat.eqb_eq in E0; lia|].
  simpl. destruct (length data =? nrows (_data (self w))) eqn:El;
    [apply Nat.eqb_eq in El; congruence | reflexivity].
Qed.

(** Adding a column under a name that is not in the table and removing it
    again gives the table back, and the backing file holds that table. *)
Theorem addData_then_removeData (name : string) (data : list value)
  (w : world) :
  ~ In name (names (_data (self w))) ->
  length data = nrows (_data (self w)) ->
  (addData to_text name data;; removeData to_text name) w
  = (Ok tt, saved to_text w (_data (self w)) (path (self w))).
Proof.
  intros Hfresh Hlen.
  unfold addData, removeData. st_unfold. unfold setitem_list.
  assert ((nrows (_data (self w)) =? 0) && negb (length data =? 0) = false)
    as ->.
  { rewrite Hlen. now destruct (nrows (_data (self w))). }
  apply Nat.eqb_eq in Hlen. rewrite Hlen. simpl.
  unfold drop, names. simpl.
  assert (existsb (String.eqb name)
            (map fst (assoc_set name data (columns (_data (self w)))))
          = true) as ->.
  { apply existsb_names, assoc_In_names. now rewrite assoc_set_same. }
  simpl. rewrite (filter_assoc_set_fresh name data _ Hfresh).
  rewrite save_run. unfold saved, with_data. simpl.
  rewrite insert_insert_eq.
  destruct w as [[sc mc p [n cols]] fs]. reflexivity.
Qed.

(** removeData with the name of a column returns; the table then has no
    column of that name, every other column and the row count are as
    before, the backing file holds the new table, and removing the same
    name once more raises KeyError. *)
Theorem removeData_removes (name : string) (w : world) :
  In name (names (_data (self w))) ->
  exists w',
    removeData to_text name w = (Ok tt, w')
    /\ ~ In name (names (_data (self w')))
    /\ (forall k, k <> name ->
          getitem (_data (self w')) k = getitem (_data (self w)) k)
    /\ nrows (_data (self w')) = nrows (_data (self w))
    /\ synced to_text w'
    /\ removeData to_text name w' = (Raise (KeyError name), w').
Proof.
  intros Hin. apply existsb_names in Hin.
  exists (saved to_text w
            {| nrows := nrows (_data (self w));
               columns :=
                 List.filter (fun c => negb (String.eqb (fst c) name))
                             (columns (_data (self w))) |}
            (path (self w))).
  split.
  { unfold removeData, save. st_unfold. unfold drop. rewrite Hin.
    reflexivity. }
  assert (Hgone : ~ In name
            (map fst (List.filter
                        (fun c => negb (String.eqb (fst c) name))
                        (columns (_data (self w)))))).
  { apply filter_drops_name. }
  repeat split.
  - exact Hgone.
  - intros k Hk. unfold getitem. simpl. now rewrite assoc_filter_other.
  - unfold synced. simpl. apply lookup_insert_eq.
  - unfold removeData. st_unfold. unfold drop, names. simpl.
    destruct (existsb (String.eqb name)
                (map fst (List.filter
                            (fun c => negb (String.eqb (fst c) name))
                            (columns (_data (self w)))))) eqn:E;
      [|reflexivity].
    apply existsb_names in E. contradiction.
Qed.

(** addDescriptors, addData, removeData and createScaffoldGroups each
    leave the backing file equal to the table when it was so before,
    whether they return or raise. *)
Lemma run_call_keeps_synced (c : call) (w : world) :
  is_addScaffolds c = false ->
  synced to_text w ->
  synced to_text (snd (run_call MolFromSmiles to_text c w)).
Proof.
  destruct c as [ds|fs|name data|name|m]; simpl; intros Hc Hs;
    try discriminate.
  - revert w Hs. induction ds as [|d ds IH]; intros w Hs; [exact Hs|].
    rewrite addDescriptors_step.
    destruct (apply_rows _ _ _) as [col|e]; [|exact Hs].
    apply IH. apply synced_saved.
  - unfold addData. st_unfold.
    destruct (setitem_list _ _ _) as [df|e]; simpl; [|exact Hs].
    apply (synced_saved to_text w df).
  - unfold removeData. st_unfold.
    destruct (drop _ _) as [df|e]; simpl; [|exact Hs].
    apply (synced_saved to_text w df).
  - destruct (createScaffoldGroups_run to_text m w) as (df' & Hrun & _).
    rewrite Hrun. apply synced_saved.
Qed.

(** Persistence: once the backing file equals the table, it does so after
    every sequence of addDescriptors, addData, removeData and
    createScaffoldGroups calls, whichever of them return or raise. *)
Theorem run_all_keeps_synced (calls : list call) (w : world) :
  forallb (fun c => negb (is_addScaffolds c)) calls = true ->
  synced to_text w ->
  synced to_text (run_all (map (run_call MolFromSmiles to_text) calls) w).
Proof.
  revert w. induction calls as [|c calls IH]; intros w Hall Hs; [exact Hs|].
  simpl in Hall. apply andb_true_iff in Hall as [Hc Hall].
  apply negb_true_iff in Hc. simpl. apply IH; [assumption|].
  now apply run_call_keeps_synced.
Qed.

End MoreMutation.

Lemma addDescriptors_columns_witness :
  let w' := snd (addDescriptors demo_to_text
                   [demo_descriptor; demo_descriptor_text] demo_world) in
  (forall d, In d [demo_descriptor; demo_descriptor_text] ->
     exists vals,
       map_result (fn_call d) [VMol "CCO"; VMol "c1ccccc1"] = Ok vals
       /\ getitem (_data (self w')) ("Descriptor_" +:+ fn_str d) = Ok vals)
  /\ (forall k,
        (forall d, In d [demo_descriptor; demo_descriptor_text] ->
                   k <> "Descriptor_" +:+ fn_str d) ->
        getitem (_data (self w')) k = getitem demo_frame k).
Proof.
  apply (addDescriptors_columns demo_to_text
           [demo_descriptor; demo_descriptor_text] demo_world
           (snd (addDescriptors demo_to_text
                   [demo_descriptor; demo_descriptor_text] demo_world))
           [VMol "CCO"; VMol "c1ccccc1"]).
  - simpl. apply NoDup_cons. split; [|apply NoDup_singleton].
    apply not_elem_of_cons. split; [discriminate | apply not_elem_of_nil].
  - simpl. intros d [<-|[<-|[]]]; discriminate.
  - reflexivity.
  - reflexivity.
Defined.

(** The table after the batch of the two descriptors. *)
Example addDescriptors_two_functions :
  columns (_data (self (snd (addDescriptors demo_to_text
                               [demo_descriptor; demo_descriptor_text]
                               demo_world))))
  = [("SMILES", [VStr "CCO"; VStr "c1ccccc1"]);
     ("RDMol", [VMol "CCO"; VMol "c1ccccc1"]);
     ("Descriptor_Len", [VNum 3; VNum 8]);
     ("Descriptor_Text", [VStr "CCO"; VStr "c1ccccc1"])].
Proof. vm_compute. reflexivity. Qed.

Lemma addDescriptors_column_order_witness :
  names (_data (self (snd (addDescriptors demo_to_text [demo_descriptor]
                             demo_world))))
  = ["SMILES"; "RDMol"; "Descriptor_Len"].
Proof.
  apply (addDescriptors_column_order demo_to_text demo_descriptor demo_world
           (snd (addDescriptors demo_to_text [demo_descriptor] demo_world))).
  reflexivity.
Defined.

Lemma addScaffolds_columns_witness :
  exists mols col parsed,
    getitem demo_frame "RDMol" = Ok mols
    /\ map_result (fn_call demo_scaffold) mols = Ok col
    /\ map_result demo_MolFromSmiles col = Ok parsed
    /\ getitem (_data (self demo_scaffold_world)) "Scaffold_Murcko" = Ok col
    /\ getitem (_data (self demo_scaffold_world)) "Scaffold_Murcko_RDMol"
       = Ok parsed
    /\ (forall k,
          k <> "Scaffold_Murcko" ->
          k <> "Scaffold_Murcko_RDMol" ->
          getitem (_data (self demo_scaffold_world)) k
          = getitem demo_frame k).
Proof.
  apply (addScaffolds_columns demo_MolFromSmiles demo_to_text demo_scaffold
           demo_world demo_scaffold_world).
  reflexivity.
Defined.

(** The table after [addScaffolds([Murcko])]. *)
Example addScaffolds_one_function :
  columns (_data (self demo_scaffold_world))
  = [("SMILES", [VStr "CCO"; VStr "c1ccccc1"]);
     ("RDMol", [VMol "CCO"; VMol "c1ccccc1"]);
     ("Scaffold_Murcko", [VStr "CCO"; VStr "c1ccccc1"]);
     ("Scaffold_Murcko_RDMol", [VMol "CCO"; VMol "c1ccccc1"])].
Proof. vm_compute. reflexivity. Qed.

Lemma addScaffolds_parse_failure_witness :
  exists w',
    addScaffolds demo_MolFromSmiles demo_to_text [demo_no_scaffold]
      demo_world
    = (Raise TypeError, w')
    /\ getitem (_data (self w')) "Scaffold_Nothing" = Ok [VNone; VNone]
    /\ disk w' = disk demo_world.
Proof.
  apply (addScaffolds_parse_failure demo_MolFromSmiles demo_to_text
           demo_no_scaffold [] demo_world [VNone; VNone] TypeError);
    reflexivity.
Defined.

Lemma addData_wrong_length_witness :
  addData demo_to_text "Label" [VStr "x"] demo_world
  = (Raise ValueError, demo_world).
Proof.
  apply (addData_wrong_length demo_to_text "Label" [VStr "x"] demo_world);
    simpl; lia.
Defined.

Lemma addData_then_removeData_witness :
  (addData demo_to_text "Label" [VStr "x"; VStr "y"];;
   removeData demo_to_text "Label") demo_world
  = (Ok tt, saved demo_to_text demo_world demo_frame "data.tsv").
Proof.
  apply (addData_then_removeData demo_to_text "Label" [VStr "x"; VStr "y"]
           demo_world).
  - simpl. intros [H|[H|[]]]; discriminate H.
  - reflexivity.
Defined.

Lemma removeData_removes_witness :
  exists w',
    removeData demo_to_text "SMILES" demo_world = (Ok tt, w')
    /\ ~ In "SMILES" (names (_data (self w')))
    /\ (forall k, k <> "SMILES" ->
          getitem (_data (self w')) k = getitem demo_frame k)
    /\ nrows (_data (self w')) = 2
    /\ synced demo_to_text w'
    /\ removeData demo_to_text "SMILES" w'
       = (Raise (KeyError "SMILES"), w').
Proof.
  apply (removeData_removes demo_to_text "SMILES" demo_world).
  simpl. now left.
Defined.

Lemma run_all_keeps_synced_witness :
  synced demo_to_text
    (run_all (map (run_call demo_MolFromSmiles demo_to_text)
                  [AddDescriptors [demo_descriptor; demo_failing];
                   AddData "Label" [VStr "x"];
                   RemoveData "SMILES";
                   CreateScaffoldGroups 2])
             demo_world).
Proof.
  apply (run_all_keeps_synced demo_MolFromSmiles demo_to_text
           [AddDescriptors [demo_descriptor; demo_failing];
            AddData "Label" [VStr "x"];
            RemoveData "SMILES";
            CreateScaffoldGroups 2]
           demo_world).
  - reflexivity.
  - reflexivity.
Defined.

(* ===================================================================== *)
(** ** Reading the table *)
(* ===================================================================== *)

Lemma assoc_rename (old new : string) (cols : list (string * list value)) :
  ~ In new (map fst cols) ->
  assoc new
    (map (fun c => (if String.eqb (fst c) old then new else fst c, snd c))
         cols)
  = assoc old cols.
Proof.
  induction cols as [|[k y] cols IH]; simpl; intros Hnot; [reflexivity|].
  destruct (String.eqb_spec k old) as [->|Hk].
  - now rewrite String.eqb_refl.
  - destruct (String.eqb_spec k new) as [->|_]; [tauto|].
    apply IH. tauto.
Qed.

Lemma names_rename_old (old new : string)
  (cols : list (string * list value)) :
  new <> old ->
  ~ In old
      (map fst
         (map (fun c => (if String.eqb (fst c) old then new else fst c,
                         snd c))
              cols)).
Proof.
  intros Hne H. apply in_map_iff in H as (c & Hc & Hin).
  apply in_map_iff in Hin as ([k y] & <- & _). simpl in Hc.
  destruct (String.eqb_spec k old); congruence.
Qed.

Lemma NoDup_assoc {A : Type} (k : string) (x : A)
  (cols : list (string * A)) :
  NoDup (map fst cols) -> In (k, x) cols -> assoc k cols = Some x.
Proof.
  induction cols as [|[k' y] cols IH]; simpl; intros Hnd Hin; [destruct Hin|].
  apply NoDup_cons in Hnd as [Hk' Hnd].
  destruct Hin as [E|Hin].
  - inversion E. subst. now rewrite String.eqb_refl.
  - destruct (String.eqb_spec k' k) as [->|_]; [|now apply IH].
    exfalso. apply Hk'. apply list_elem_of_In.
    apply in_map_iff. now exists (k, x).
Qed.

Lemma select_exact (df : DataFrame) (l : list (string * list value)) :
  (forall k vs, In (k, vs) l -> assoc k (columns df) = Some vs) ->
  select df (map fst l) = Ok {| nrows := nrows df; columns := l |}.
Proof.
  unfold select. intros Hall.
  assert (map_result (fun k => vs ← getitem df k; Ok (k, vs)) (map fst l)
          = Ok l) as ->; [|reflexivity].
  induction l as [|[k vs] l IH]; [reflexivity|].
  simpl. unfold getitem at 1. rewrite (Hall k vs (or_introl eq_refl)). simpl.
  rewrite IH; [reflexivity|].
  intros k' vs' Hin. apply Hall. now right.
Qed.

Lemma map_fst_filter {A : Type} (P : string -> bool)
  (cols : list (string * A)) :
  map fst (List.filter (fun c => P (fst c)) cols)
  = List.filter P (map fst cols).
Proof.
  induction cols as [|[k y] cols IH]; simpl; [reflexivity|].
  destruct (P k); simpl; now rewrite IH.
Qed.

Lemma select_prefix (P : string -> bool) (df : DataFrame) :
  NoDup (names df) ->
  select df (List.filter P (names df))
  = Ok {| nrows := nrows df;
          columns := List.filter (fun c => P (fst c)) (columns df) |}.
Proof.
  intros Hnd. unfold names. rewrite <- map_fst_filter.
  apply select_exact. intros k vs Hin.
  apply filter_In in Hin as [Hin _]. now apply NoDup_assoc.
Qed.

Lemma filter_nonempty {A : Type} (P : A -> bool) (l : list A) :
  (0 <? length (List.filter P l)) = true
  <-> exists x, In x l /\ P x = true.
Proof.
  split.
  - destruct (List.filter P l) as [|x l'] eqn:E; [discriminate|].
    intros _. exists x. apply filter_In. rewrite E. now left.
  - intros (x & Hin & HP).
    assert (In x (List.filter P l)) as H by (apply filter_In; auto).
    destruct (List.filter P l); [destruct H | reflexivity].
Qed.

Section MoreReading.

Variable MolFromSmiles : callable.
Variable to_text : value -> string.
Variable read_column : list string -> list value.
Variable read_names : list string -> list string.

(** A store that the constructor returned keeps the path and the name of
    the structure column it was given, names its molecule column [RDMol],
    and holds in the molecule column, row by row, the molecules parsed from
    the structure column. *)
Theorem init_molecule_column
  (p mol_col : string) (fs : gmap string tsv) (s : DataSetTSV) :
  mol_col <> "RDMol" ->
  init MolFromSmiles read_column read_names p mol_col fs = Ok s ->
  path s = p /\ smilesCol s = mol_col /\ molCol s = "RDMol"
  /\ exists smiles mols,
       getMols true {| self := s; disk := fs |}
       = (Ok smiles, {| self := s; disk := fs |})
       /\ getMols false {| self := s; disk := fs |}
          = (Ok mols, {| self := s; disk := fs |})
       /\ map_result MolFromSmiles smiles = Ok mols
       /\ length mols = length smiles.
Proof.
  intros Hne. unfold init.
  destruct (fs !! p) as [f|]; simpl; [|discriminate].
  destruct (read_csv read_column read_names f) as [df|e]; simpl;
    [|discriminate].
  destruct (getitem df mol_col) as [smiles|e] eqn:Es; simpl; [|discriminate].
  destruct (map_result MolFromSmiles smiles) as [mols|e] eqn:Em; simpl;
    [|discriminate].
  intros E. injection E as <-. simpl. repeat split.
  exists smiles, mols. unfold getMols. st_unfold. unfold getitem in *. simpl.
  rewrite assoc_set_other by exact Hne.
  rewrite assoc_set_same. repeat split.
  - destruct (assoc mol_col (columns df)); [now inversion Es | discriminate].
  - exact Em.
  - now apply map_result_length in Em.
Qed.

(** A file that can be read but lacks the structure column makes the
    constructor raise KeyError for that column: no store is returned. *)
Theorem init_missing_structure_column
  (p mol_col : string) (fs : gmap string tsv) (f : tsv) (df : DataFrame) :
  fs !! p = Some f ->
  read_csv read_column read_names f = Ok df ->
  ~ In mol_col (names df) ->
  init MolFromSmiles read_column read_names p mol_col fs
  = Raise (KeyError mol_col).
Proof.
  intros Hf Hr Hnot. unfold init. rewrite Hf, Hr. simpl. unfold getitem.
  destruct (assoc mol_col (columns df)) eqn:E; [|reflexivity].
  exfalso. apply Hnot. apply assoc_In_names. congruence.
Qed.

(** asDataFrame changes nothing. Asked for a name that no other column
    has, it returns a table with the same rows and the same cells in the
    same order, in which the structure column is found under that name and,
    when the name is a new one, no longer under the old one. *)
Theorem asDataFrame_view (w : world) (n : string) (smiles : list value) :
  getitem (_data (self w)) (smilesCol (self w)) = Ok smiles ->
  ~ In n (names (_data (self w))) \/ n = smilesCol (self w) ->
  exists df,
    asDataFrame n w = (Ok df, w)
    /\ getitem df n = Ok smiles
    /\ nrows df = nrows (_data (self w))
    /\ map snd (columns df) = map snd (columns (_data (self w)))
    /\ (n <> smilesCol (self w) -> ~ In (smilesCol (self w)) (names df)).
Proof.
  intros Hs Hn. unfold asDataFrame. st_unfold.
  destruct (String.eqb_spec n (smilesCol (self w))) as [->|Hne].
  - exists (_data (self w)). repeat split; [assumption | congruence].
  - destruct Hn as [Hn|Hn]; [|congruence].
    exists (rename (_data (self w)) (smilesCol (self w)) n).
    repeat split.
    + unfold getitem, rename in *. simpl.
      rewrite (assoc_rename _ _ _ Hn).
      destruct (assoc _ _); [exact Hs | discriminate].
    + unfold rename. simpl. rewrite map_map. now apply map_ext.
    + intros _. now apply names_rename_old.
Qed.

(** On a table with distinct column names, getDescriptors returns the
    columns whose name starts with [Descriptor_] and getScaffolds, whatever
    its flag, those whose name starts with [Scaffold_]: in table order, with
    their cells and the row count of the table. Neither raises, neither
    changes anything. *)
Theorem getDescriptors_projection (w : world) (includeMols : bool) :
  NoDup (names (_data (self w))) ->
  getDescriptors w
  = (Ok {| nrows := nrows (_data (self w));
           columns :=
             List.filter (fun c => startswith (fst c) "Descriptor_")
                         (columns (_data (self w))) |},
     w)
  /\ getScaffolds includeMols w
     = (Ok {| nrows := nrows (_data (self w));
              columns :=
                List.filter (fun c => startswith (fst c) "Scaffold_")
                            (columns (_data (self w))) |},
        w).
Proof.
  intros Hnd. split.
  - unfold getDescriptors, getDescriptorsNames. st_unfold.
    now rewrite (select_prefix (fun col => startswith col "Descriptor_")).
  - unfold getScaffolds, getScaffoldNames. st_unfold.
    destruct includeMols;
      now rewrite (select_prefix (fun col => startswith col "Scaffold_")).
Qed.

(** After a batch of at least one descriptor has returned, hasDescriptors
    is true and getDescriptorsNames lists the column of every function of
    the batch. *)
Theorem hasDescriptors_after_addDescriptors
  (ds : list Annotation) (w w' : world) :
  ds <> [] ->
  addDescriptors to_text ds w = (Ok tt, w') ->
  hasDescriptors w' = (Ok true, w')
  /\ exists cols,
       getDescriptorsNames w' = (Ok cols, w')
       /\ forall d, In d ds -> In ("Descriptor_" +:+ fn_str d) cols.
Proof.
  intros Hne Hrun.
  destruct (addDescriptors_completed to_text ds w w' Hrun) as (_ & _ & Hall).
  assert (Hcols : forall d, In d ds ->
            In ("Descriptor_" +:+ fn_str d)
               (List.filter (fun col => startswith col "Descriptor_")
                            (names (_data (self w'))))).
  { intros d Hd. apply filter_In. split.
    - rewrite Forall_forall in Hall. apply Hall. now apply list_elem_of_In.
    - unfold startswith. simpl. now destruct (fn_str d). }
  split.
  - unfold hasDescriptors, getDescriptorsNames. st_unfold. do 2 f_equal.
    destruct ds as [|d ds]; [congruence|].
    specialize (Hcols d (or_introl eq_refl)).
    destruct (List.filter _ _); [destruct Hcols | reflexivity].
  - eexists. split; [reflexivity | exact Hcols].
Qed.

(** When the table has a scaffold column, it has a grouping column after
    createScaffoldGroups: hasScaffolds before gives hasScaffoldGroups
    after. *)
Theorem hasScaffoldGroups_after_createScaffoldGroups (m : Z) (w : world) :
  fst (hasScaffolds w) = Ok true ->
  fst (hasScaffoldGroups (snd (createScaffoldGroups to_text m w)))
  = Ok true.
Proof.
  unfold hasScaffolds, getScaffoldNames, hasScaffoldGroups. st_unfold.
  intros H. injection H as H.
  apply filter_nonempty in H as (k & Hin & Hk).
  destruct (createScaffoldGroups_run to_text m w)
    as (df' & Hrun & _ & Hgrp & _).
  rewrite Hrun. simpl. f_equal.
  apply filter_nonempty. exists ("ScaffoldGroup_" +:+ k). split.
  - apply assoc_In_names in Hin.
    destruct (assoc k (columns (_data (self w)))) as [col|] eqn:Ek;
      [|congruence].
    apply assoc_In_names. now rewrite (Hgrp k col Hk Ek).
  - apply group_name_is_group.
Qed.

End MoreReading.

Lemma init_molecule_column_witness :
  path demo_store = "data.tsv" /\ smilesCol demo_store = "SMILES"
  /\ molCol demo_store = "RDMol"
  /\ exists smiles mols,
       getMols true {| self := demo_store; disk := disk demo_world |}
       = (Ok smiles, {| self := demo_store; disk := disk demo_world |})
       /\ getMols false {| self := demo_store; disk := disk demo_world |}
          = (Ok mols, {| self := demo_store; disk := disk demo_world |})
       /\ map_result demo_MolFromSmiles smiles = Ok mols
       /\ length mols = length smiles.
Proof.
  apply (init_molecule_column demo_MolFromSmiles demo_read_column
           demo_read_names "data.tsv" "SMILES" (disk demo_world) demo_store).
  - discriminate.
  - reflexivity.
Defined.

Lemma init_missing_structure_column_witness :
  init demo_MolFromSmiles demo_read_column demo_read_names
       "empty.tsv" "Structure" demo_header_only
  = Raise (KeyError "Structure").
Proof.
  apply (init_missing_structure_column demo_MolFromSmiles demo_read_column
           demo_read_names "empty.tsv" "Structure" demo_header_only
           {| nrows := 0; columns := [("SMILES", [])] |}
           {| nrows := 0; columns := [("SMILES", [])] |}).
  - reflexivity.
  - reflexivity.
  - simpl. intros [H|[]]. discriminate H.
Defined.

Lemma asDataFrame_view_witness :
  exists df,
    asDataFrame "Structure" demo_world = (Ok df, demo_world)
    /\ getitem df "Structure" = Ok [VStr "CCO"; VStr "c1ccccc1"]
    /\ nrows df = 2
    /\ map snd (columns df) = map snd (columns demo_frame)
    /\ ("Structure" <> "SMILES" -> ~ In "SMILES" (names df)).
Proof.
  apply (asDataFrame_view demo_world "Structure"
           [VStr "CCO"; VStr "c1ccccc1"]).
  - reflexivity.
  - left. simpl. intros [H|[H|[]]]; discriminate H.
Defined.

Lemma getDescriptors_projection_witness :
  getDescriptors demo_scaffold_world
  = (Ok {| nrows := 2; columns := [] |}, demo_scaffold_world)
  /\ getScaffolds false demo_scaffold_world
     = (Ok {| nrows := 2;
              columns :=
                [("Scaffold_Murcko", [VStr "CCO"; VStr "c1ccccc1"]);
                 ("Scaffold_Murcko_RDMol",
                  [VMol "CCO"; VMol "c1ccccc1"])] |},
        demo_scaffold_world).
Proof.
  apply (getDescriptors_projection demo_scaffold_world false).
  apply (bool_decide_unpack _). reflexivity.
Defined.

Lemma hasDescriptors_after_addDescriptors_witness :
  let w' := snd (addDescriptors demo_to_text [demo_descriptor] demo_world) in
  hasDescriptors w' = (Ok true, w')
  /\ exists cols,
       getDescriptorsNames w' = (Ok cols, w')
       /\ forall d, In d [demo_descriptor] ->
                    In ("Descriptor_" +:+ fn_str d) cols.
Proof.
  apply (hasDescriptors_after_addDescriptors demo_to_text [demo_descriptor]
           demo_world
           (snd (addDescriptors demo_to_text [demo_descriptor] demo_world))).
  - discriminate.
  - reflexivity.
Defined.

Lemma hasScaffoldGroups_after_createScaffoldGroups_witness :
  fst (hasScaffoldGroups (snd (createScaffoldGroups demo_to_text 2
                                 demo_abc_world)))
  = Ok true.
Proof.
  apply (hasScaffoldGroups_after_createScaffoldGroups demo_to_text 2
           demo_abc_world).
  reflexivity.
Defined.

(* ===================================================================== *)
(** ** Dropping duplicate rows *)
(* ===================================================================== *)

Lemma keep_first_seen (keys : list value) :
  forall seen : list value,
    NoDup (keep_rows (first_seen seen keys) keys)
    /\ forall k, In k (keep_rows (first_seen seen keys) keys)
                 <-> In k keys /\ ~ In k seen.
Proof.
  induction keys as [|x keys IH]; intros seen; simpl.
  - split; [constructor | tauto].
  - destruct (IH (x :: seen)) as [Hnd Hin].
    destruct (isin x seen) eqn:Ex; simpl.
    + apply isin_In in Ex. split; [exact Hnd|].
      intros k. rewrite Hin. simpl. split.
      * intros [Hk Hnot]. tauto.
      * intros [[->|Hk] Hnot]; [contradiction|].
        split; [assumption|]. intros [->|H]; contradiction.
    + assert (Hx : ~ In x seen).
      { intros H. apply isin_In in H. congruence. }
      split.
      * apply NoDup_cons. split; [|exact Hnd].
        intros H. apply list_elem_of_In, Hin in H as [_ H].
        apply H. now left.
      * intros k. simpl. rewrite Hin. simpl. split.
        -- intros [->|[Hk Hnot]]; tauto.
        -- intros [[->|Hk] Hnot]; [now left|].
           destruct (decide (x = k)) as [->|Hne]; [now left|].
           right. split; [assumption|]. intros [E|H]; contradiction.
Qed.

Lemma keep_rows_length {A B : Type} (mask : list bool) :
  forall (l1 : list A) (l2 : list B),
    length l1 = length l2 ->
    length (keep_rows mask l1) = length (keep_rows mask l2).
Proof.
  induction mask as [|b mask IH]; intros [|x l1] [|y l2] Hlen;
    simpl in *; try reflexivity; try discriminate.
  injection Hlen as Hlen. destruct b; simpl; auto.
Qed.

Lemma keep_rows_le {A : Type} (mask : list bool) :
  forall l : list A, length (keep_rows mask l) <= length l.
Proof.
  induction mask as [|b mask IH]; intros [|x l]; simpl; try lia.
  specialize (IH l). destruct b; simpl; lia.
Qed.

Lemma first_seen_fresh (keys : list value) :
  forall seen : list value,
    NoDup keys ->
    (forall k, In k keys -> ~ In k seen) ->
    keep_rows (first_seen seen keys) keys = keys
    /\ forall (A : Type) (l : list A),
         length l = length keys ->
         keep_rows (first_seen seen keys) l = l.
Proof.
  induction keys as [|x keys IH]; intros seen Hnd Hfresh.
  - split; [reflexivity|]. intros A [|y l] Hl; [reflexivity | discriminate].
  - apply NoDup_cons in Hnd as [Hx Hnd].
    assert (Ex : isin x seen = false).
    { destruct (isin x seen) eqn:E; [|reflexivity].
      apply isin_In in E. exfalso. apply (Hfresh x); [now left | exact E]. }
    destruct (IH (x :: seen) Hnd) as [Hk Hl].
    { intros k Hk [->|H].
      - apply Hx. now apply list_elem_of_In.
      - apply (Hfresh k); [now right | exact H]. }
    simpl. rewrite Ex. simpl. split; [now rewrite Hk|].
    intros A [|y l] Hlen; [discriminate|].
    injection Hlen as Hlen. now rewrite Hl.
Qed.

Lemma assoc_map_snd {A B : Type} (g : A -> B) (key : string)
  (cols : list (string * A)) :
  assoc key (map (fun c => (fst c, g (snd c))) cols)
  = g <$> assoc key cols.
Proof.
  induction cols as [|[k y] cols IH]; simpl; [reflexivity|].
  now destruct (String.eqb k key).
Qed.

Lemma drop_duplicates_run
  (df : DataFrame) (key : string) (keys : list value) :
  getitem df key = Ok keys ->
  exists df' keys',
    drop_duplicates df key = Ok df'
    /\ getitem df' key = Ok keys'
    /\ NoDup keys'
    /\ (forall k, In k keys' <-> In k keys)
    /\ nrows df' = length keys'
    /\ length keys' <= length keys
    /\ names df' = names df
    /\ (frame_wf df -> frame_wf df').
Proof.
  intros Hk. unfold drop_duplicates. rewrite Hk. simpl.
  destruct (keep_first_seen keys []) as [Hnd Hin].
  eexists. exists (keep_rows (first_seen [] keys) keys).
  split; [reflexivity|]. repeat split.
  - unfold getitem in *. simpl.
    rewrite (assoc_map_snd (keep_rows (first_seen [] keys))).
    destruct (assoc key (columns df)); [|discriminate].
    inversion Hk. reflexivity.
  - exact Hnd.
  - intros H. now apply Hin in H.
  - intros H. apply Hin. tauto.
  - apply keep_rows_le.
  - unfold names. simpl. rewrite map_map. now apply map_ext.
  - intros Hwf.
    pose proof (getitem_wf df key keys Hwf Hk) as Hlen.
    unfold frame_wf in *. simpl.
    rewrite Forall_forall in *. intros c Hc.
    apply list_elem_of_In, in_map_iff in Hc as (c' & <- & Hc'). simpl.
    apply keep_rows_length.
    rewrite (Hwf c') by now apply list_elem_of_In.
    now symmetry.
Qed.

(** drop_duplicates on a column that is there returns a table with the
    same columns in which that column has no value twice and has exactly
    the values it had; the table has as many rows as that column has
    values left, never more than before, and every column is as long as
    the row count when this was so before. When the column is not there it
    raises KeyError. *)
Theorem drop_duplicates_keys (df : DataFrame) (key : string) :
  match getitem df key with
  | Ok keys =>
      exists df' keys',
        drop_duplicates df key = Ok df'
        /\ getitem df' key = Ok keys'
        /\ NoDup keys'
        /\ (forall k, In k keys' <-> In k keys)
        /\ nrows df' = length keys'
        /\ length keys' <= length keys
        /\ names df' = names df
        /\ (frame_wf df -> frame_wf df')
  | Raise e => drop_duplicates df key = Raise (KeyError key)
  end.
Proof.
  destruct (getitem df key) as [keys|e] eqn:Hk.
  - now apply drop_duplicates_run.
  - unfold drop_duplicates. rewrite Hk. simpl.
    unfold getitem in Hk. destruct (assoc key (columns df)); [discriminate|].
    now inversion Hk.
Qed.

(** Dropping the duplicates of a table whose columns are as long as its
    row count and dropping them again gives the same table as dropping them
    once. *)
Theorem drop_duplicates_idempotent
  (df df' : DataFrame) (key : string) :
  frame_wf df ->
  drop_duplicates df key = Ok df' ->
  drop_duplicates df' key = Ok df'.
Proof.
  intros Hwf Hd.
  destruct (getitem df key) as [keys|e] eqn:Hk;
    [|unfold drop_duplicates in Hd; rewrite Hk in Hd; discriminate].
  destruct (drop_duplicates_run df key keys Hk)
    as (df1 & keys' & Hd1 & Hk' & Hnd & _ & Hn & _ & _ & Hwf').
  rewrite Hd in Hd1. injection Hd1 as <-.
  specialize (Hwf' Hwf).
  unfold drop_duplicates. rewrite Hk'. simpl.
  destruct (first_seen_fresh keys' [] Hnd) as [Hsame Hcols];
    [intros k _ []|].
  rewrite Hsame. f_equal.
  destruct df' as [n cols]. simpl in *. f_equal; [congruence|].
  unfold frame_wf in Hwf'. simpl in Hwf'. clear Hd Hk' Hk Hwf.
  induction Hwf' as [|[k y] cols Hc _ IH]; [reflexivity|].
  simpl in *. rewrite IH. rewrite Hcols by congruence. reflexivity.
Qed.

Lemma drop_duplicates_idempotent_witness :
  drop_duplicates
    {| nrows := 2;
       columns := [("InChIKey", [VStr "K1"; VStr "K2"]);
                   ("SMILES", [VStr "CCO"; VStr "CCN"])] |}
    "InChIKey"
  = Ok {| nrows := 2;
          columns := [("InChIKey", [VStr "K1"; VStr "K2"]);
                      ("SMILES", [VStr "CCO"; VStr "CCN"])] |}.
Proof.
  apply (drop_duplicates_idempotent demo_compounds).
  - repeat constructor.
  - reflexivity.
Defined.

(* ===================================================================== *)
(** ** Running the pipeline of papyrus_filter *)
(* ===================================================================== *)

Section MorePapyrus.

Variable to_text : value -> string.
Variable read_column : list string -> list value.
Variable read_names : list string -> list string.
Variable chunks : Type.
Variable read_papyrus :
  gmap string tsv -> bool -> Z -> string -> bool -> result chunks.
Variable keep_quality : chunks -> string -> chunks.
Variable keep_accession : chunks -> list string -> chunks.
Variable consume_chunks : chunks -> result DataFrame.

(** When the existing file is not to be used, or there is none,
    papyrus_filter returns the table of the pipeline with the path of the
    output file and has written exactly that table to that path; when the
    pipeline raises, papyrus_filter raises the same and writes no file. *)
Lemma papyrus_filter_fresh
  (acc_key : list string) (quality outdir : string)
  (prefix : option string) (drop_dups use_existing stereo plusplus : bool)
  (chunk_size : Z) (w : pworld) :
  use_existing = false
  \/ files w !! outfile_path acc_key quality outdir prefix = None ->
  let out := outfile_path acc_key quality outdir prefix in
  let run := papyrus_filter to_text read_column read_names chunks
               read_papyrus keep_quality keep_accession consume_chunks
               acc_key quality outdir prefix drop_dups chunk_size
               use_existing stereo plusplus w in
  match pipeline_table chunks read_papyrus keep_quality keep_accession
          consume_chunks (files w) acc_key quality outdir drop_dups stereo
          plusplus chunk_size with
  | Ok df =>
      fst run = Ok (df, out)
      /\ files (snd run) = <[out := to_csv to_text df]> (files w)
  | Raise e => fst run = Raise e /\ files (snd run) = files w
  end.
Proof.
  intros Hfresh. cbv zeta.
  assert (Hnone : (if use_existing
                   then files w !! outfile_path acc_key quality outdir prefix
                   else None) = None).
  { destruct Hfresh as [->|H]; [reflexivity|]. rewrite H.
    now destruct use_existing. }
  unfold papyrus_filter, pipeline_table, mbind, ST_bind, result_bind,
    mret, ST_ret, get_files, lift, print, put_file.
  cbv beta zeta. rewrite Hnone. cbv beta iota.
  destruct (read_papyrus _ _ _ _ _) as [sample|e]; cbv beta iota;
    [|split; reflexivity].
  destruct (consume_chunks _) as [fd|e]; cbv beta iota;
    [|split; reflexivity].
  destruct drop_dups; cbv beta iota; [|split; reflexivity].
  unfold drop_duplicates, mbind, result_bind.
  destruct (getitem fd "InChIKey") as [keys|e] eqn:Hk; cbv beta iota;
    [|split; reflexivity].
  assert (Hafter :
            getitem
              {| nrows := length (keep_rows (first_seen [] keys) keys);
                 columns :=
                   map (fun c => (fst c,
                                  keep_rows (first_seen [] keys) (snd c)))
                       (columns fd) |}
              "InChIKey"
            = Ok (keep_rows (first_seen [] keys) keys)).
  { unfold getitem in *. cbn [columns].
    rewrite (assoc_map_snd (keep_rows (first_seen [] keys))).
    destruct (assoc "InChIKey" (columns fd)); [|discriminate].
    now inversion Hk. }
  rewrite Hafter. split; reflexivity.
Qed.

(** A run of the pipeline that returns has written the table it returns to
    the path it returns, and to no other path. *)
Theorem papyrus_filter_returns_what_it_wrote
  (acc_key : list string) (quality outdir : string)
  (prefix : option string) (drop_dups use_existing stereo plusplus : bool)
  (chunk_size : Z) (w w' : pworld) (df : DataFrame) (out : string) :
  use_existing = false
  \/ files w !! outfile_path acc_key quality outdir prefix = None ->
  papyrus_filter to_text read_column read_names chunks read_papyrus
    keep_quality keep_accession consume_chunks
    acc_key quality outdir prefix drop_dups chunk_size use_existing stereo
    plusplus w
  = (Ok (df, out), w') ->
  out = outfile_path acc_key quality outdir prefix
  /\ files w' !! out = Some (to_csv to_text df)
  /\ (forall q, q <> out -> files w' !! q = files w !! q).
Proof.
  intros Hfresh Hrun.
  pose proof (papyrus_filter_fresh acc_key quality outdir prefix drop_dups
                use_existing stereo plusplus chunk_size w Hfresh) as H.
  cbv zeta in H. rewrite Hrun in H. simpl in H.
  destruct (pipeline_table _ _ _ _ _ _ _ _ _ _ _ _ _) as [df0|e].
  - destruct H as [E ->]. injection E as -> ->. repeat split.
    + apply lookup_insert_eq.
    + intros q Hq. now apply lookup_insert_ne.
  - destruct H as [E _]. discriminate E.
Qed.

(** Whenever papyrus_filter raises, in the branch that reads an existing
    file as in the one that runs the pipeline, it has written no file. *)
Theorem papyrus_filter_failure_writes_nothing
  (acc_key : list string) (quality outdir : string)
  (prefix : option string) (drop_dups use_existing stereo plusplus : bool)
  (chunk_size : Z) (w w' : pworld) (e : exn) :
  papyrus_filter to_text read_column read_names chunks read_papyrus
    keep_quality keep_accession consume_chunks
    acc_key quality outdir prefix drop_dups chunk_size use_existing stereo
    plusplus w
  = (Raise e, w') ->
  files w' = files w.
Proof.
  intros Hrun.
  destruct (if use_existing
            then files w !! outfile_path acc_key quality outdir prefix
            else None) as [f|] eqn:Hf.
  - revert Hrun. unfold papyrus_filter. cbv zeta.
    unfold mbind at 1, ST_bind at 1, get_files. rewrite Hf.
    unfold mbind at 1, ST_bind at 1, print.
    unfold mbind at 1, ST_bind at 1, lift.
    destruct (read_csv read_column read_names f); simpl; [discriminate|].
    intros E. now injection E as _ <-.
  - assert (Hfresh : use_existing = false
                     \/ files w !! outfile_path acc_key quality outdir prefix
                        = None).
    { destruct use_existing; [now right | now left]. }
    pose proof (papyrus_filter_fresh acc_key quality outdir prefix drop_dups
                  use_existing stereo plusplus chunk_size w Hfresh) as H.
    cbv zeta in H. rewrite Hrun in H. simpl in H.
    destruct (pipeline_table _ _ _ _ _ _ _ _ _ _ _ _ _) as [df0|e0].
    + destruct H as [E _]. discriminate E.
    + now destruct H as [_ ->].
Qed.

(** With drop_duplicates set, the table a run of the pipeline returns has
    no InChIKey twice. *)
Theorem papyrus_filter_no_duplicate_keys
  (acc_key : list string) (quality outdir : string)
  (prefix : option string) (use_existing stereo plusplus : bool)
  (chunk_size : Z) (w w' : pworld) (df : DataFrame) (out : string) :
  use_existing = false
  \/ files w !! outfile_path acc_key quality outdir prefix = None ->
  papyrus_filter to_text read_column read_names chunks read_papyrus
    keep_quality keep_accession consume_chunks
    acc_key quality outdir prefix true chunk_size use_existing stereo
    plusplus w
  = (Ok (df, out), w') ->
  exists keys, getitem df "InChIKey" = Ok keys /\ NoDup keys.
Proof.
  intros Hfresh Hrun.
  pose proof (papyrus_filter_fresh acc_key quality outdir prefix true
                use_existing stereo plusplus chunk_size w Hfresh) as H.
  cbv zeta in H. rewrite Hrun in H. simpl in H.
  unfold pipeline_table in H.
  destruct (read_papyrus _ _ _ _ _) as [sample|e]; simpl in H;
    [|destruct H as [E _]; discriminate E].
  destruct (consume_chunks _) as [fd|e]; simpl in H;
    [|destruct H as [E _]; discriminate E].
  destruct (getitem fd "InChIKey") as [keys|e] eqn:Hk.
  - destruct (drop_duplicates_run fd "InChIKey" keys Hk)
      as (df' & keys' & Hd & Hk' & Hnd & _).
    rewrite Hd in H. destruct H as [E _]. injection E as <-.
    now exists keys'.
  - unfold drop_duplicates in H. rewrite Hk in H. simpl in H.
    destruct H as [E _]. discriminate E.
Qed.

End MorePapyrus.

Lemma papyrus_filter_returns_what_it_wrote_witness :
  "out/P00533_high.tsv" = outfile_path ["P00533"] "high" "out" None
  /\ files (snd (demo_filter true true false demo_empty_disk))
       !! "out/P00533_high.tsv"
     = Some (to_csv demo_to_text
               {| nrows := 2;
                  columns := [("InChIKey", [VStr "K1"; VStr "K2"]);
                              ("SMILES", [VStr "CCO"; VStr "CCN"])] |})
  /\ (forall q, q <> "out/P00533_high.tsv" ->
        files (snd (demo_filter true true false demo_empty_disk)) !! q
        = files demo_empty_disk !! q).
Proof.
  exact (papyrus_filter_returns_what_it_wrote demo_to_text demo_read_column
           demo_read_names DataFrame
           (fun _ _ _ _ _ => Ok demo_compounds)
           (fun c _ => c) (fun c _ => c) (fun c => Ok c)
           ["P00533"] "high" "out" None true false false false 100000
           demo_empty_disk
           (snd (demo_filter true true false demo_empty_disk))
           {| nrows := 2;
              columns := [("InChIKey", [VStr "K1"; VStr "K2"]);
                          ("SMILES", [VStr "CCO"; VStr "CCN"])] |}
           "out/P00533_high.tsv"
           (or_introl eq_refl) eq_refl).
Defined.

Lemma papyrus_filter_failure_writes_nothing_witness :
  files (snd (demo_filter false true true demo_empty_disk))
  = files demo_empty_disk.
Proof.
  exact (papyrus_filter_failure_writes_nothing demo_to_text demo_read_column
           demo_read_names DataFrame
           (fun _ _ _ _ _ => Raise (Raised "no papyrus data"))
           (fun c _ => c) (fun c _ => c) (fun c => Ok c)
           ["P00533"] "high" "out" None true true false false 100000
           demo_empty_disk
           (snd (demo_filter false true true demo_empty_disk))
           (Raised "no papyrus data") eq_refl).
Defined.

Lemma papyrus_filter_no_duplicate_keys_witness :
  exists keys,
    getitem {| nrows := 2;
               columns := [("InChIKey", [VStr "K1"; VStr "K2"]);
                           ("SMILES", [VStr "CCO"; VStr "CCN"])] |}
            "InChIKey" = Ok keys
    /\ NoDup keys.
Proof.
  exact (papyrus_filter_no_duplicate_keys demo_to_text demo_read_column
           demo_read_names DataFrame
           (fun _ _ _ _ _ => Ok demo_compounds)
           (fun c _ => c) (fun c _ => c) (fun c => Ok c)
           ["P00533"] "high" "out" None false false false 100000
           demo_empty_disk
           (snd (demo_filter true true false demo_empty_disk))
           {| nrows := 2;
              columns := [("InChIKey", [VStr "K1"; VStr "K2"]);
                          ("SMILES", [VStr "CCO"; VStr "CCN"])] |}
           "out/P00533_high.tsv"
           (or_introl eq_refl) eq_refl).
Defined.

(* ===================================================================== *)
(** ** Tables without rows, and scaffold names *)
(* ===================================================================== *)

Section MoreEdges.

Variable MolFromSmiles : callable.
Variable to_text : value -> string.

(** addData with a non-empty list on a table without rows returns: the
    table then has as many rows as the list has entries, holds the list
    under the name given, has a missing entry in every cell of every other
    column, and is saved. *)
Theorem addData_on_empty_table (name : string) (data : list value)
  (w : world) :
  nrows (_data (self w)) = 0 ->
  data <> [] ->
  exists w',
    addData to_text name data w = (Ok tt, w')
    /\ nrows (_data (self w')) = length data
    /\ getitem (_data (self w')) name = Ok data
    /\ (forall k, k <> name ->
          getitem (_data (self w')) k
          = (fun _ => replicate (length data) VNone)
              <$> getitem (_data (self w)) k)
    /\ frame_wf (_data (self w'))
    /\ synced to_text w'.
Proof.
  intros Hrows Hdata.
  assert (Hset : setitem_list (_data (self w)) name data
                 = Ok {| nrows := length data;
                         columns :=
                           assoc_set name data
                             (map (fun c => (fst c,
                                             replicate (length data) VNone))
                                  (columns (_data (self w)))) |}).
  { unfold setitem_list. rewrite Hrows.
    destruct data; [congruence | reflexivity]. }
  eexists. split.
  { unfold addData, save. st_unfold. rewrite Hset. reflexivity. }
  simpl. repeat split.
  - unfold getitem. simpl. now rewrite assoc_set_same.
  - intros k Hk. unfold getitem. simpl.
    rewrite assoc_set_other by exact Hk.
    rewrite (assoc_map_snd (fun _ : list value =>
                              replicate (length data) VNone)).
    now destruct (assoc k (columns (_data (self w)))).
  - unfold frame_wf. simpl.
    apply (assoc_set_Forall (fun vs => length vs = length data));
      [reflexivity|].
    apply Forall_forall. intros c Hc.
    apply list_elem_of_In, in_map_iff in Hc as (c' & <- & _). simpl.
    apply length_replicate.
  - unfold synced. simpl. apply lookup_insert_eq.
Qed.

(** After a batch of at least one scaffold has returned, hasScaffolds is
    true, and getScaffoldNames lists for every function of the batch both
    its scaffold column and the parsed-molecule counterpart. *)
Theorem hasScaffolds_after_addScaffolds
  (fs : list Annotation) (w w' : world) :
  fs <> [] ->
  addScaffolds MolFromSmiles to_text fs w = (Ok tt, w') ->
  hasScaffolds w' = (Ok true, w')
  /\ exists cols,
       getScaffoldNames w' = (Ok cols, w')
       /\ forall f, In f fs ->
            In ("Scaffold_" +:+ fn_str f) cols
            /\ In ("Scaffold_" +:+ fn_str f +:+ "_" +:+ molCol (self w))
                  cols.
Proof.
  intros Hne Hrun.
  destruct (addScaffolds_completed MolFromSmiles to_text fs w w' Hrun)
    as (_ & _ & Hall).
  assert (Hcols : forall f, In f fs ->
            In ("Scaffold_" +:+ fn_str f)
               (List.filter (fun col => startswith col "Scaffold_")
                            (names (_data (self w'))))
            /\ In ("Scaffold_" +:+ fn_str f +:+ "_" +:+ molCol (self w))
                  (List.filter (fun col => startswith col "Scaffold_")
                               (names (_data (self w'))))).
  { intros f Hf. rewrite Forall_forall in Hall.
    destruct (Hall f) as [H1 H2]; [now apply list_elem_of_In|].
    split; apply filter_In; (split; [assumption|]);
      unfold startswith; simpl.
    - now destruct (fn_str f).
    - now destruct (fn_str f +:+ "_" +:+ molCol (self w)). }
  split.
  - unfold hasScaffolds, getScaffoldNames. st_unfold. do 2 f_equal.
    destruct fs as [|f fs]; [congruence|].
    destruct (Hcols f (or_introl eq_refl)) as [H _].
    destruct (List.filter _ _); [destruct H | reflexivity].
  - eexists. split; [reflexivity | exact Hcols].
Qed.

End MoreEdges.

Lemma addData_on_empty_table_witness :
  exists w',
    addData demo_to_text "Label" [VStr "x"]
      {| self := {| smilesCol := "SMILES"; molCol := "RDMol";
                    path := "empty.tsv";
                    _data := {| nrows := 0;
                                columns := [("SMILES", [])] |} |};
         disk := demo_header_only |}
    = (Ok tt, w')
    /\ nrows (_data (self w')) = 1
    /\ getitem (_data (self w')) "Label" = Ok [VStr "x"]
    /\ (forall k, k <> "Label" ->
          getitem (_data (self w')) k
          = (fun _ => [VNone])
              <$> getitem {| nrows := 0; columns := [("SMILES", [])] |} k)
    /\ frame_wf (_data (self w'))
    /\ synced demo_to_text w'.
Proof.
  apply (addData_on_empty_table demo_to_text "Label" [VStr "x"]
           {| self := {| smilesCol := "SMILES"; molCol := "RDMol";
                         path := "empty.tsv";
                         _data := {| nrows := 0;
                                     columns := [("SMILES", [])] |} |};
              disk := demo_header_only |}).
  - reflexivity.
  - discriminate.
Defined.

Lemma hasScaffolds_after_addScaffolds_witness :
  hasScaffolds demo_scaffold_world = (Ok true, demo_scaffold_world)
  /\ exists cols,
       getScaffoldNames demo_scaffold_world = (Ok cols, demo_scaffold_world)
       /\ forall f, In f [demo_scaffold] ->
            In ("Scaffold_" +:+ fn_str f) cols
            /\ In ("Scaffold_" +:+ fn_str f +:+ "_" +:+ "RDMol") cols.
Proof.
  apply (hasScaffolds_after_addScaffolds demo_MolFromSmiles demo_to_text
           [demo_scaffold] demo_world demo_scaffold_world).
  - discriminate.
  - reflexivity.
Defined.
